(** * PDF text extractor server (server.js): embedding and verification

    The server exposes three POST endpoints: [/extract-text] (multipart
    upload staged by multer in a scratch directory), [/extract-text-url]
    (remote fetch) and [/generate-hmac].  This development embeds the
    handlers, the multer configuration, the error middleware and the two
    utility functions [cleanupFile] and [convertGoogleDriveUrl], and proves
    the properties stated for them.

    Conventions.  A JavaScript string is the list of its UTF-16 code units,
    so [length] is the [.length] property.  JSON values are the inductive
    [Value].  Effects (file system, console, outbound fetch, responses) are
    threaded through an explicit [World]; exceptions are the [Throw]
    outcome of the handler monad. *)

From Stdlib Require Import ZArith NArith List String Ascii Bool Lia DecimalString.
From Stdlib Require Import DecimalPos DecimalN.
From stdpp Require Import gmap list.

Local Open Scope N_scope.

(** ** JavaScript strings *)

Abbreviation jsstring := (list N).

(** ASCII literal of the source text. *)
Definition lit (s : string) : jsstring :=
  map N_of_ascii (list_ascii_of_string s).

Definition in_range (lo hi c : N) : bool := (lo <=? c) && (c <=? hi).

(** The class [\s] of ECMAScript regular expressions: WhiteSpace and
    LineTerminator code points (all of them in the BMP). *)
Definition is_ws (c : N) : bool :=
  in_range 9 13 c || (c =? 32) || (c =? 160) || (c =? 5760)
  || in_range 8192 8202 c || (c =? 8232) || (c =? 8233) || (c =? 8239)
  || (c =? 8287) || (c =? 12288) || (c =? 65279).

(** [String.prototype.split] with the separator [/\s+/].

    [split_tok tok s] is the scan for the next separator: [tok] holds (in
    reverse) the code units since the end of the previous separator.
    [split_sep s] is the greedy [\s+] that has already consumed at least
    one code unit.  At the end of the input the pending token is pushed,
    which is the empty string right after a separator. *)
Fixpoint split_tok (tok s : jsstring) {struct s} : list jsstring :=
  match s with
  | [] => [rev tok]
  | c :: s' =>
      if is_ws c then rev tok :: split_sep s'
      else split_tok (c :: tok) s'
  end
with split_sep (s : jsstring) {struct s} : list jsstring :=
  match s with
  | [] => [[]]
  | c :: s' =>
      if is_ws c then split_sep s'
      else split_tok [c] s'
  end.

Definition split_ws (s : jsstring) : list jsstring := split_tok [] s.

(** [text.split(/\s+/).filter((word) => word.length > 0).length] *)
Definition nonempty (word : jsstring) : bool := (0 <? length word)%nat.

Definition wordCount (text : jsstring) : nat :=
  length (List.filter nonempty (split_ws text)).

(** [text.length] *)
Definition textLength (text : jsstring) : nat := length text.

(** The words of a text, read off directly: maximal runs of code units
    that are not whitespace.  [word_runs cur s] carries the run being
    read in [cur] (reversed). *)
Fixpoint word_runs (cur s : jsstring) : list jsstring :=
  match s with
  | [] => match cur with [] => [] | _ => [rev cur] end
  | c :: s' =>
      if is_ws c
      then match cur with [] => word_runs [] s' | _ => rev cur :: word_runs [] s' end
      else word_runs (c :: cur) s'
  end.

Definition words (s : jsstring) : list jsstring := word_runs [] s.

(** ** JSON values *)

#[warnings="-register-all"]
Inductive Value :=
| VUndefined
| VNull
| VBool (b : bool)
| VNum (n : Z)
| VStr (s : jsstring)
| VArr (items : list Value)
| VObj (fields : list (jsstring * Value)).

(** ToBoolean.  Numbers of this model are integers, so the only falsy
    number is 0. *)
Definition truthy (v : Value) : bool :=
  match v with
  | VUndefined | VNull => false
  | VBool b => b
  | VNum n => negb (n =? 0)%Z
  | VStr s => nonempty s
  | VArr _ | VObj _ => true
  end.

(** [a || b] *)
Definition js_or (a b : Value) : Value := if truthy a then a else b.

(** Property lookup in an object literal or a parsed JSON body; a missing
    key reads as [undefined]. *)
Fixpoint assoc (key : jsstring) (fields : list (jsstring * Value)) : option Value :=
  match fields with
  | [] => None
  | (k, v) :: rest => if decide (k = key) then Some v else assoc key rest
  end.

Definition get (key : string) (fields : list (jsstring * Value)) : Value :=
  match assoc (lit key) fields with Some v => v | None => VUndefined end.

Definition has_field (key : string) (fields : list (jsstring * Value)) : bool :=
  match assoc (lit key) fields with Some _ => true | None => false end.

(** ** Exceptions *)

Record JsError := mkError {
  multer_code : option jsstring;   (* [Some code] for a [MulterError] *)
  message : jsstring
}.

Inductive Result (A : Type) :=
| Ok (a : A)
| Throw (e : JsError).
Arguments Ok {A} a.
Arguments Throw {A} e.

Definition Error (msg : jsstring) : JsError := mkError None msg.

(** ** convertGoogleDriveUrl *)

Definition drive_prefix : jsstring := lit "https://drive.google.com/file/d/".
Definition download_prefix : jsstring :=
  lit "https://drive.google.com/uc?export=download&id=".

(** The class [[a-zA-Z0-9_-]]. *)
Definition is_id_char (c : N) : bool :=
  in_range 97 122 c || in_range 65 90 c || in_range 48 57 c
  || (c =? 95) || (c =? 45).

Fixpoint strip_prefix (p s : jsstring) : option jsstring :=
  match p, s with
  | [], _ => Some s
  | a :: p', b :: s' => if a =? b then strip_prefix p' s' else None
  | _ :: _, [] => None
  end.

Fixpoint take_while (f : N -> bool) (s : jsstring) : jsstring :=
  match s with
  | c :: s' => if f c then c :: take_while f s' else []
  | [] => []
  end.

(** One attempt of [driveRegex] at the start of [s]: the literal prefix,
    then the greedy group [([a-zA-Z0-9_-]+)].  Returns the group. *)
Definition match_here (s : jsstring) : option jsstring :=
  match strip_prefix drive_prefix s with
  | Some rest =>
      match take_while is_id_char rest with
      | [] => None
      | fileId => Some fileId
      end
  | None => None
  end.

(** [url.match(driveRegex)]: the regex is not anchored, the first position
    where an attempt succeeds wins.  Returns [match[1]]. *)
Fixpoint regex_match (s : jsstring) : option jsstring :=
  match match_here s with
  | Some fileId => Some fileId
  | None =>
      match s with
      | [] => None
      | _ :: s' => regex_match s'
      end
  end.

(** Reading [.match] off a value that is not a string does not give a
    function, and the call raises a TypeError.  On a string the result is
    a string again: the template string or the argument itself. *)
Definition convertGoogleDriveUrl (url : Value) : Result jsstring :=
  match url with
  | VStr s =>
      match regex_match s with
      | Some fileId => Ok (download_prefix ++ fileId)
      | None => Ok s
      end
  | _ => Throw (Error (lit "url.match is not a function"))
  end.

(** ** path.extname and toLowerCase *)

(** Loop state of Node's POSIX [extname]. *)
Record ExtState := mkExt {
  startDot : Z;
  startPart : Z;
  endIdx : Z;
  matchedSlash : bool;
  preDotState : Z;
  stopped : bool     (* the [break] was taken *)
}.

Definition extname_step (st : ExtState) (ic : Z * N) : ExtState :=
  let '(i, code) := ic in
  let '(mkExt sd sp e ms pd stop) := st in
  if stop then st
  else if code =? 47 then
    if negb ms then mkExt sd (i + 1) e ms pd true else st
  else
    let '(e1, ms1) := if (e =? -1)%Z then ((i + 1)%Z, false) else (e, ms) in
    if code =? 46 then
      if (sd =? -1)%Z then mkExt i sp e1 ms1 pd false
      else if negb (pd =? 1)%Z then mkExt sd sp e1 ms1 1 false
      else mkExt sd sp e1 ms1 pd false
    else if negb (sd =? -1)%Z then mkExt sd sp e1 ms1 (-1) false
    else mkExt sd sp e1 ms1 pd false.

(** Code units paired with their index. *)
Fixpoint indexed (i : Z) (s : jsstring) : list (Z * N) :=
  match s with
  | [] => []
  | c :: s' => (i, c) :: indexed (i + 1) s'
  end.

Definition slice (from to : Z) (s : jsstring) : jsstring :=
  firstn (Z.to_nat (to - from)) (skipn (Z.to_nat from) s).

Definition extname (path : jsstring) : jsstring :=
  let st := fold_left extname_step (rev (indexed 0 path))
                      (mkExt (-1) 0 (-1) true 0 false) in
  if ((startDot st =? -1) || (endIdx st =? -1) || (preDotState st =? 0)
      || ((preDotState st =? 1) && (startDot st =? endIdx st - 1)
          && (startDot st =? startPart st + 1)))%Z
  then []
  else slice (startDot st) (endIdx st) path.

(** [toLowerCase] on the ASCII letters; other code units are kept. *)
Definition lower (c : N) : N := if in_range 65 90 c then c + 32 else c.
Definition toLowerCase (s : jsstring) : jsstring := map lower s.

(** Number to string conversion of a non-negative integer. *)
Definition dec (n : Z) : jsstring :=
  lit (NilZero.string_of_uint (N.to_uint (Z.to_N n))).

(** ** Responses, events and the world *)

Record Response := mkResponse {
  status : Z;
  body : list (jsstring * Value)   (* the object handed to [res.json] *)
}.

Definition field (k : string) (v : Value) : jsstring * Value := (lit k, v).
Definition str (s : string) : Value := VStr (lit s).
Infix ":-" := field (at level 60).

Inductive Event :=
| EvLog (line : jsstring)                   (* console.log *)
| EvError (label : jsstring) (e : JsError)  (* console.error(label, error) *)
| EvWrite (path : jsstring)                 (* file created by the storage engine *)
| EvUnlink (path : jsstring)                (* file removed from the file system *)
| EvFetch (url : jsstring)                  (* outbound GET *)
| EvSend (r : Response).                    (* response sent to the client *)

Record World := mkWorld {
  files : gmap jsstring (list Byte.byte);   (* file system: path to content *)
  undeletable : gset jsstring;              (* paths on which unlink fails *)
  unreadable : gset jsstring;               (* paths on which reading fails *)
  now : Z;                                  (* Date.now() *)
  random : Z;                               (* Math.round(Math.random() * 1e9) *)
  trace : list Event                        (* what happened, oldest first *)
}.

Definition emit (e : Event) (w : World) : World :=
  mkWorld (files w) (undeletable w) (unreadable w) (now w) (random w)
          (trace w ++ [e]).

Definition set_files (fs : gmap jsstring (list Byte.byte)) (w : World) : World :=
  mkWorld fs (undeletable w) (unreadable w) (now w) (random w) (trace w).

Definition set_undeletable (u : gset jsstring) (w : World) : World :=
  mkWorld (files w) u (unreadable w) (now w) (random w) (trace w).

(** Handler monad: state and exceptions. *)
Definition M (A : Type) : Type := World -> Result A * World.

Definition ret {A} (a : A) : M A := fun w => (Ok a, w).
Definition throw {A} (e : JsError) : M A := fun w => (Throw e, w).
Definition bind {A B} (m : M A) (k : A -> M B) : M B :=
  fun w => match m w with
           | (Ok a, w') => k a w'
           | (Throw e, w') => (Throw e, w')
           end.
Definition try_catch {A} (m : M A) (handler : JsError -> M A) : M A :=
  fun w => match m w with
           | (Ok a, w') => (Ok a, w')
           | (Throw e, w') => handler e w'
           end.
Definition lift {A} (r : Result A) : M A := fun w => (r, w).

Declare Scope handler_scope.
Delimit Scope handler_scope with M.
Notation "x <- m ;; k" := (bind m (fun x => k))
  (at level 100, m at next level, right associativity) : handler_scope.
Notation "m ;; k" := (bind m (fun _ => k))
  (at level 100, right associativity) : handler_scope.
Local Open Scope handler_scope.

Definition console_log (line : jsstring) : M unit :=
  fun w => (Ok tt, emit (EvLog line) w).
Definition console_error (label : string) (e : JsError) : M unit :=
  fun w => (Ok tt, emit (EvError (lit label) e) w).

(** [res.status(code).json(obj)] and [res.json(obj)] *)
Definition res_status_json (code : Z) (obj : list (jsstring * Value)) : M unit :=
  fun w => (Ok tt, emit (EvSend (mkResponse code obj)) w).
Definition res_json (obj : list (jsstring * Value)) : M unit :=
  res_status_json 200 obj.

(** *** File system primitives *)

Definition existsSync (p : jsstring) : M bool :=
  fun w => (Ok (bool_decide (is_Some (files w !! p))), w).

Definition unlinkSync (p : jsstring) : M unit :=
  fun w =>
    match files w !! p with
    | None => (Throw (Error (lit "ENOENT: no such file or directory, unlink")), w)
    | Some _ =>
        if bool_decide (p ∈ undeletable w)
        then (Throw (Error (lit "EPERM: operation not permitted, unlink")), w)
        else (Ok tt, emit (EvUnlink p) (set_files (delete p (files w)) w))
    end.

Definition readFileSync (p : jsstring) : M (list Byte.byte) :=
  fun w =>
    match files w !! p with
    | None => (Throw (Error (lit "ENOENT: no such file or directory, open")), w)
    | Some data =>
        if bool_decide (p ∈ unreadable w)
        then (Throw (Error (lit "EACCES: permission denied, open")), w)
        else (Ok data, w)
    end.

Definition writeFile (p : jsstring) (data : list Byte.byte) : M unit :=
  fun w => (Ok tt, emit (EvWrite p) (set_files (<[p := data]> (files w)) w)).

(** ** cleanupFile *)

Definition cleanupFile (filePath : jsstring) : M unit :=
  try_catch
    (present <- existsSync filePath ;;
     if present then unlinkSync filePath else ret tt)
    (fun error => console_error "Error cleaning up file:" error).

(** ** crypto.createHmac("sha512", key)

    HMAC (RFC 2104) over SHA-512 (FIPS 180-4) on 64-bit words held in [Z]
    with the wrap-around written out.  String arguments are encoded as
    UTF-8, the digest is printed in lower-case hexadecimal. *)
Module Crypto.
Local Open Scope Z_scope.

Definition w64 (x : Z) : Z := x mod 2 ^ 64.
Definition add64 (x y : Z) : Z := w64 (x + y).
Definition rotr (n x : Z) : Z := w64 (Z.lor (Z.shiftr x n) (Z.shiftl x (64 - n))).
Definition shr (n x : Z) : Z := Z.shiftr x n.
Definition not64 (x : Z) : Z := 2 ^ 64 - 1 - x.

Definition Ch (x y z : Z) : Z := Z.lxor (Z.land x y) (Z.land (not64 x) z).
Definition Maj (x y z : Z) : Z :=
  Z.lxor (Z.lxor (Z.land x y) (Z.land x z)) (Z.land y z).
Definition Sigma0 (x : Z) : Z := Z.lxor (Z.lxor (rotr 28 x) (rotr 34 x)) (rotr 39 x).
Definition Sigma1 (x : Z) : Z := Z.lxor (Z.lxor (rotr 14 x) (rotr 18 x)) (rotr 41 x).
Definition sigma0 (x : Z) : Z := Z.lxor (Z.lxor (rotr 1 x) (rotr 8 x)) (shr 7 x).
Definition sigma1 (x : Z) : Z := Z.lxor (Z.lxor (rotr 19 x) (rotr 61 x)) (shr 6 x).

Definition K512 : list Z :=
  [
   0x428a2f98d728ae22; 0x7137449123ef65cd; 0xb5c0fbcfec4d3b2f; 0xe9b5dba58189dbbc;
   0x3956c25bf348b538; 0x59f111f1b605d019; 0x923f82a4af194f9b; 0xab1c5ed5da6d8118;
   0xd807aa98a3030242; 0x12835b0145706fbe; 0x243185be4ee4b28c; 0x550c7dc3d5ffb4e2;
   0x72be5d74f27b896f; 0x80deb1fe3b1696b1; 0x9bdc06a725c71235; 0xc19bf174cf692694;
   0xe49b69c19ef14ad2; 0xefbe4786384f25e3; 0x0fc19dc68b8cd5b5; 0x240ca1cc77ac9c65;
   0x2de92c6f592b0275; 0x4a7484aa6ea6e483; 0x5cb0a9dcbd41fbd4; 0x76f988da831153b5;
   0x983e5152ee66dfab; 0xa831c66d2db43210; 0xb00327c898fb213f; 0xbf597fc7beef0ee4;
   0xc6e00bf33da88fc2; 0xd5a79147930aa725; 0x06ca6351e003826f; 0x142929670a0e6e70;
   0x27b70a8546d22ffc; 0x2e1b21385c26c926; 0x4d2c6dfc5ac42aed; 0x53380d139d95b3df;
   0x650a73548baf63de; 0x766a0abb3c77b2a8; 0x81c2c92e47edaee6; 0x92722c851482353b;
   0xa2bfe8a14cf10364; 0xa81a664bbc423001; 0xc24b8b70d0f89791; 0xc76c51a30654be30;
   0xd192e819d6ef5218; 0xd69906245565a910; 0xf40e35855771202a; 0x106aa07032bbd1b8;
   0x19a4c116b8d2d0c8; 0x1e376c085141ab53; 0x2748774cdf8eeb99; 0x34b0bcb5e19b48a8;
   0x391c0cb3c5c95a63; 0x4ed8aa4ae3418acb; 0x5b9cca4f7763e373; 0x682e6ff3d6b2b8a3;
   0x748f82ee5defb2fc; 0x78a5636f43172f60; 0x84c87814a1f0ab72; 0x8cc702081a6439ec;
   0x90befffa23631e28; 0xa4506cebde82bde9; 0xbef9a3f7b2c67915; 0xc67178f2e372532b;
   0xca273eceea26619c; 0xd186b8c721c0c207; 0xeada7dd6cde0eb1e; 0xf57d4f7fee6ed178;
   0x06f067aa72176fba; 0x0a637dc5a2c898a6; 0x113f9804bef90dae; 0x1b710b35131c471b;
   0x28db77f523047d84; 0x32caab7b40c72493; 0x3c9ebe0a15c9bebc; 0x431d67c49c100d4c;
   0x4cc5d4becb3e42b6; 0x597f299cfc657e2a; 0x5fcb6fab3ad6faec; 0x6c44198c4a475817
  ].

Definition H512 : list Z :=
  [
   0x6a09e667f3bcc908; 0xbb67ae8584caa73b; 0x3c6ef372fe94f82b; 0xa54ff53a5f1d36f1;
   0x510e527fade682d1; 0x9b05688c2b3e6c1f; 0x1f83d9abfb41bd6b; 0x5be0cd19137e2179
  ].

(** Big-endian encoding of [x] on [n] bytes and its inverse. *)
Fixpoint be_bytes (n : nat) (x : Z) : list Z :=
  match n with
  | O => []
  | S n' => be_bytes n' (x / 256) ++ [x mod 256]
  end.

Definition be_word (bs : list Z) : Z := fold_left (fun acc b => acc * 256 + b) bs 0.

(** Padding: 0x80, zeros up to 112 modulo 128, the bit length on 16 bytes. *)
Definition pad (msg : list Z) : list Z :=
  let len := Z.of_nat (length msg) in
  let zeros := (111 - len) mod 128 in
  msg ++ [128] ++ repeat 0 (Z.to_nat zeros) ++ be_bytes 16 (8 * len).

Fixpoint chunks (fuel size : nat) (l : list Z) : list (list Z) :=
  match fuel, l with
  | S fuel', _ :: _ => firstn size l :: chunks fuel' size (skipn size l)
  | _, _ => []
  end.

Definition split_every (size : nat) (l : list Z) : list (list Z) :=
  chunks (length l) size l.

(** Message schedule: [window] holds W[t-16] .. W[t-1]. *)
Fixpoint schedule (n : nat) (window : list Z) : list Z :=
  match n with
  | O => []
  | S n' =>
      let at_ i := nth i window 0 in
      let wt := add64 (add64 (sigma1 (at_ 14%nat)) (at_ 9%nat))
                      (add64 (sigma0 (at_ 1%nat)) (at_ 0%nat)) in
      wt :: schedule n' (tl window ++ [wt])
  end.

Definition message_schedule (block : list Z) : list Z :=
  let w16 := map be_word (split_every 8 block) in
  w16 ++ schedule 64 w16.

Record Regs := mkRegs { ra : Z; rb : Z; rc : Z; rd : Z; re : Z; rf : Z; rg : Z; rh : Z }.

Definition round (r : Regs) (kw : Z * Z) : Regs :=
  let '(k, w) := kw in
  let t1 := add64 (add64 (add64 (rh r) (Sigma1 (re r))) (add64 (Ch (re r) (rf r) (rg r)) k)) w in
  let t2 := add64 (Sigma0 (ra r)) (Maj (ra r) (rb r) (rc r)) in
  mkRegs (add64 t1 t2) (ra r) (rb r) (rc r) (add64 (rd r) t1) (re r) (rf r) (rg r).

Definition regs_of (h : list Z) : Regs :=
  let at_ i := nth i h 0 in
  mkRegs (at_ 0%nat) (at_ 1%nat) (at_ 2%nat) (at_ 3%nat)
         (at_ 4%nat) (at_ 5%nat) (at_ 6%nat) (at_ 7%nat).

Definition list_of (r : Regs) : list Z :=
  [ra r; rb r; rc r; rd r; re r; rf r; rg r; rh r].

Fixpoint zip_with (f : Z -> Z -> Z) (xs ys : list Z) : list Z :=
  match xs, ys with
  | x :: xs', y :: ys' => f x y :: zip_with f xs' ys'
  | _, _ => []
  end.

Definition compress (h : list Z) (block : list Z) : list Z :=
  let r := fold_left round (combine K512 (message_schedule block)) (regs_of h) in
  zip_with add64 h (list_of r).

Definition sha512 (msg : list Z) : list Z :=
  flat_map (be_bytes 8) (fold_left compress (split_every 128 (pad msg)) H512).

Definition block_size : nat := 128.

Definition hmac_sha512 (key msg : list Z) : list Z :=
  let k0 := if (block_size <? length key)%nat then sha512 key else key in
  let k := k0 ++ repeat 0 (block_size - length k0) in
  let ipad := map (Z.lxor 54) k in
  let opad := map (Z.lxor 92) k in
  sha512 (opad ++ sha512 (ipad ++ msg)).

(** Lower-case hexadecimal printing of a byte string. *)
Definition hex_digit (d : Z) : N :=
  Z.to_N (if d <? 10 then 48 + d else 87 + d).

Definition hex (bs : list Z) : jsstring :=
  flat_map (fun b => [hex_digit (b / 16); hex_digit (b mod 16)]) bs.

(** UTF-8 encoding of a code point. *)
Definition utf8_cp (cp : Z) : list Z :=
  if cp <? 128 then [cp]
  else if cp <? 2048 then [192 + cp / 64; 128 + cp mod 64]
  else if cp <? 65536 then [224 + cp / 4096; 128 + (cp / 64) mod 64; 128 + cp mod 64]
  else [240 + cp / 262144; 128 + (cp / 4096) mod 64; 128 + (cp / 64) mod 64; 128 + cp mod 64].

Definition is_high (u : Z) : bool := (55296 <=? u) && (u <=? 56319).
Definition is_low (u : Z) : bool := (56320 <=? u) && (u <=? 57343).

(** UTF-8 encoding of a string of UTF-16 code units: a surrogate pair is
    one code point, a lone surrogate becomes U+FFFD. *)
Fixpoint utf8_units (s : list Z) : list Z :=
  match s with
  | [] => []
  | u :: rest =>
      if is_high u then
        match rest with
        | v :: rest' =>
            if is_low v
            then utf8_cp (65536 + (u - 55296) * 1024 + (v - 56320)) ++ utf8_units rest'
            else utf8_cp 65533 ++ utf8_units rest
        | [] => utf8_cp 65533
        end
      else if is_low u then utf8_cp 65533 ++ utf8_units rest
      else utf8_cp u ++ utf8_units rest
  end.

Definition utf8 (s : jsstring) : list Z := utf8_units (map Z.of_N s).

End Crypto.

(** ** Requests and collaborators *)

(** The file part of a multipart request, as multer reads its headers:
    the form field it was sent under, the file name (without directories),
    the content type, and the bytes that follow. *)
Record Part := mkPart {
  fieldname : jsstring;
  originalname : jsstring;
  mimetype : jsstring;
  content : list Byte.byte
}.

(** [req.file] as multer's disk storage fills it. *)
Record File := mkFile {
  file_fieldname : jsstring;
  file_originalname : jsstring;
  file_mimetype : jsstring;
  file_filename : jsstring;
  file_path : jsstring;
  file_size : Z
}.

(** What [pdfParse] resolves to. *)
Record PdfData := mkPdfData {
  text : jsstring;
  numpages : Value;
  info : Value;
  version : Value
}.

(** What [fetch] resolves to. *)
Record FetchResponse := mkFetchResponse {
  http_status : Z;
  statusText : jsstring;
  arrayBuffer : Result (list Byte.byte)
}.

(** [response.ok] *)
Definition ok (r : FetchResponse) : bool :=
  (200 <=? http_status r)%Z && (http_status r <=? 299)%Z.

Definition dq : jsstring := [34].   (* the double quote *)
Definition arrows : jsstring := [55357; 56580].   (* U+1F504, as a surrogate pair *)

(** ToString, as a template literal applies it. *)
Definition dec_signed (n : Z) : jsstring :=
  if (n <? 0)%Z then lit "-" ++ dec (- n) else dec n.

#[warnings="-register-all"]
Fixpoint ToString (v : Value) : jsstring :=
  match v with
  | VUndefined => lit "undefined"
  | VNull => lit "null"
  | VBool true => lit "true"
  | VBool false => lit "false"
  | VNum n => dec_signed n
  | VStr s => s
  | VArr items =>
      (fix join (l : list Value) : jsstring :=
         match l with
         | [] => []
         | [x] => match x with VUndefined | VNull => [] | _ => ToString x end
         | x :: l' =>
             match x with VUndefined | VNull => [] | _ => ToString x end
             ++ lit "," ++ join l'
         end) items
  | VObj _ => lit "[object Object]"
  end.

(** [s === v] for a string [s] *)
Definition strict_eq_string (s : jsstring) (v : Value) : bool :=
  match v with
  | VStr s' => bool_decide (s = s')
  | _ => false
  end.

(** [x.length] *)
Definition js_length (v : Value) : Value :=
  match v with
  | VStr s => VNum (Z.of_nat (length s))
  | VArr items => VNum (Z.of_nat (length items))
  | _ => VUndefined
  end.

(** The responses sent and the URLs fetched, read off a trace. *)
Definition sends (evs : list Event) : list Response :=
  flat_map (fun e => match e with EvSend r => [r] | _ => [] end) evs.

Definition fetches (evs : list Event) : list jsstring :=
  flat_map (fun e => match e with EvFetch u => [u] | _ => [] end) evs.

Definition responses (w : World) : list Response := sends (trace w).
Definition fetched (w : World) : list jsstring := fetches (trace w).

(** The world a handler leaves behind. *)
Definition run {A} (m : M A) (w : World) : World := snd (m w).

Section Server.

(** The scratch directory, [path.join(__dirname, "uploads")]. *)
Variable uploadsDir : jsstring.
(** The PDF parser, the outbound HTTP client and the date formatter. *)
Variable pdfParse : list Byte.byte -> Result PdfData.
Variable fetch : jsstring -> Result FetchResponse.
Variable toISOString : Z -> jsstring.
(** Text of the TypeError the crypto module raises for an argument (named
    by the first parameter) that is neither a string nor a buffer. *)
Variable invalid_arg_message : string -> Value -> jsstring.

(** [new Date().toISOString()] *)
Definition new_Date_toISOString : M jsstring :=
  fun w => (Ok (toISOString (now w)), w).

(** *** multer configuration *)

(** [storage.filename] *)
Definition storage_filename (file : Part) : M jsstring :=
  fun w =>
    let uniqueSuffix := dec (now w) ++ lit "-" ++ dec (random w) in
    (Ok (fieldname file ++ lit "-" ++ uniqueSuffix ++ extname (originalname file)), w).

(** [limits.fileSize] *)
Definition fileSizeLimit : Z := 10 * 1024 * 1024.

(** [fileFilter]: [Ok true] is [cb(null, true)], [Throw e] is [cb(e, false)]. *)
Definition fileFilter (file : Part) : Result bool :=
  if bool_decide (mimetype file = lit "application/pdf")
     || bool_decide (toLowerCase (extname (originalname file)) = lit ".pdf")
  then Ok true
  else Throw (Error (lit "Only PDF files are allowed!")).

(** Outcome of the multer middleware: [next()] with [req.file] set or
    not, or [next(err)]. *)
Inductive MulterOutcome :=
| Next (file : option File)
| NextErr (e : JsError).

Definition MulterError (code msg : string) : JsError :=
  mkError (Some (lit code)) (lit msg).

(** Removal of a staged file by multer when it aborts an upload; an error
    of the removal is kept aside and the upload error is passed on. *)
Definition storage_removeFile (p : jsstring) : M unit :=
  try_catch (unlinkSync p) (fun _ => ret tt).

(** [upload.single(name)] on a request that carries at most one file
    part.  A part without a file name is no file: it is skipped and
    [req.file] stays unset.  A file under a field other than [name] is
    refused with [LIMIT_UNEXPECTED_FILE] before the filter is asked.  The
    filter runs on the part's headers; an accepted part is streamed to the
    scratch directory; a stream that reaches the limit is cut there and the
    upload is aborted with [LIMIT_FILE_SIZE] after the partial file is
    removed, so that only a file shorter than the limit is handed on. *)
Definition upload_single (name : jsstring) (part : option Part) : M MulterOutcome :=
  match part with
  | None => ret (Next None)
  | Some file =>
      if negb (nonempty (originalname file)) then ret (Next None)
      else if negb (bool_decide (fieldname file = name)) then
        ret (NextErr (MulterError "LIMIT_UNEXPECTED_FILE" "Unexpected field"))
      else
        match fileFilter file with
        | Throw e => ret (NextErr e)
        | Ok false => ret (Next None)
        | Ok true =>
            filename <- storage_filename file ;;
            let path := uploadsDir ++ lit "/" ++ filename in
            let size := Z.of_nat (length (content file)) in
            if (fileSizeLimit <=? size)%Z then
              writeFile path (firstn (Z.to_nat fileSizeLimit) (content file)) ;;
              storage_removeFile path ;;
              ret (NextErr (MulterError "LIMIT_FILE_SIZE" "File too large"))
            else
              writeFile path (content file) ;;
              ret (Next (Some (mkFile (fieldname file) (originalname file)
                                      (mimetype file) filename path size)))
        end
  end.

(** *** POST /extract-text *)

Definition metadata_fields (pdfData : PdfData) : list (jsstring * Value) :=
  [ "pages" :- numpages pdfData;
    "info" :- js_or (info pdfData) (VObj []);
    "version" :- js_or (version pdfData) (str "Unknown") ].

Definition metadata (pdfData : PdfData) : Value := VObj (metadata_fields pdfData).

(** The [result] object of the upload handler. *)
Definition upload_result (file : File) (pdfData : PdfData) (extractedAt : jsstring)
  : list (jsstring * Value) :=
  [ "success" :- VBool true;
    "filename" :- VStr (file_originalname file);
    "fileSize" :- VNum (file_size file);
    "text" :- VStr (text pdfData);
    "metadata" :- metadata pdfData;
    "extractedAt" :- VStr extractedAt;
    "textLength" :- VNum (Z.of_nat (textLength (text pdfData)));
    "wordCount" :- VNum (Z.of_nat (wordCount (text pdfData))) ].

Definition extract_text_handler (req_file : option File) : M unit :=
  try_catch
    (match req_file with
     | None =>
         res_status_json 400
           [ "error" :- str "No PDF file uploaded";
             "message" :- VStr (lit "Please upload a PDF file using the " ++ dq
                                ++ lit "pdf" ++ dq ++ lit " field") ]
     | Some file =>
         let filePath := file_path file in
         console_log (lit "Processing PDF: " ++ file_originalname file) ;;
         dataBuffer <- readFileSync filePath ;;
         pdfData <- lift (pdfParse dataBuffer) ;;
         extractedAt <- new_Date_toISOString ;;
         let result := upload_result file pdfData extractedAt in
         cleanupFile filePath ;;
         res_json result
     end)
    (fun error =>
       console_error "PDF processing error:" error ;;
       match req_file with
       | Some file =>
           if nonempty (file_path file) then cleanupFile (file_path file) else ret tt
       | None => ret tt
       end ;;
       res_status_json 500
         [ "error" :- str "Failed to extract text from PDF";
           "message" :- VStr (message error);
           "success" :- VBool false ]).

(** *** Error handling middleware *)

Definition error_middleware (error : JsError) : M unit :=
  if bool_decide (multer_code error = Some (lit "LIMIT_FILE_SIZE")) then
    res_status_json 400
      [ "error" :- str "File too large";
        "message" :- str "PDF file size must be less than 10MB" ]
  else if bool_decide (message error = lit "Only PDF files are allowed!") then
    res_status_json 400
      [ "error" :- str "Invalid file type";
        "message" :- str "Only PDF files are allowed" ]
  else
    console_error "Unhandled error:" error ;;
    res_status_json 500
      [ "error" :- str "Internal server error";
        "message" :- str "Something went wrong processing your request" ].

(** The route [app.post("/extract-text", upload.single("pdf"), handler)]
    followed by the error middleware. *)
Definition post_extract_text (part : option Part) : M unit :=
  outcome <- upload_single (lit "pdf") part ;;
  match outcome with
  | Next req_file => extract_text_handler req_file
  | NextErr e => error_middleware e
  end.

(** *** The upload route in closed form

    The names below spell out, as plain functions of the request and the
    initial world, what the route is proved to do further down. *)

Definition missing_file_response : Response :=
  mkResponse 400
    [ "error" :- str "No PDF file uploaded";
      "message" :- VStr (lit "Please upload a PDF file using the " ++ dq
                         ++ lit "pdf" ++ dq ++ lit " field") ].

Definition invalid_type_response : Response :=
  mkResponse 400
    [ "error" :- str "Invalid file type";
      "message" :- str "Only PDF files are allowed" ].

Definition too_large_response : Response :=
  mkResponse 400
    [ "error" :- str "File too large";
      "message" :- str "PDF file size must be less than 10MB" ].

(** The answer of the error middleware to an error it does not know. *)
Definition internal_error_response : Response :=
  mkResponse 500
    [ "error" :- str "Internal server error";
      "message" :- str "Something went wrong processing your request" ].

(** The error multer raises for a file under a field it was not told of. *)
Definition unexpected_field : JsError :=
  MulterError "LIMIT_UNEXPECTED_FILE" "Unexpected field".

Definition failure_response (category : string) (e : JsError) : Response :=
  mkResponse 500
    [ "error" :- str category;
      "message" :- VStr (message e);
      "success" :- VBool false ].

(** The name and path the storage engine gives the file of a request. *)
Definition scratch_name (f : Part) (w : World) : jsstring :=
  lit "pdf" ++ lit "-" ++ (dec (now w) ++ lit "-" ++ dec (random w))
  ++ extname (originalname f).

Definition scratch_path (f : Part) (w : World) : jsstring :=
  uploadsDir ++ lit "/" ++ scratch_name f w.

Definition received (f : Part) : Z := Z.of_nat (length (content f)).

Definition staged_file (f : Part) (w : World) : File :=
  mkFile (lit "pdf") (originalname f) (mimetype f)
         (scratch_name f w) (scratch_path f w) (received f).

Definition stage (p : jsstring) (data : list Byte.byte) (w : World) : World :=
  emit (EvWrite p) (set_files (<[p := data]> (files w)) w).

Definition unlinked (p : jsstring) (w : World) : World :=
  emit (EvUnlink p) (set_files (delete p (files w)) w).

Definition eperm : JsError := Error (lit "EPERM: operation not permitted, unlink").
Definition eacces : JsError := Error (lit "EACCES: permission denied, open").

(** World after [cleanupFile p]. *)
Definition cleanup (p : jsstring) (w : World) : World :=
  match files w !! p with
  | None => w
  | Some _ =>
      if bool_decide (p ∈ undeletable w)
      then emit (EvError (lit "Error cleaning up file:") eperm) w
      else unlinked p w
  end.

(** World after multer's own removal of a partial file. *)
Definition aborted (p : jsstring) (w : World) : World :=
  match files w !! p with
  | None => w
  | Some _ => if bool_decide (p ∈ undeletable w) then w else unlinked p w
  end.

(** What reading and parsing the staged file gives. *)
Definition extraction (f : Part) (w : World) : Result PdfData :=
  if bool_decide (scratch_path f w ∈ unreadable w) then Throw eacces
  else pdfParse (content f).

(** World after the whole route. *)
Definition upload_world (part : option Part) (w : World) : World :=
  match part with
  | None => emit (EvSend missing_file_response) w
  | Some f =>
      if negb (nonempty (originalname f)) then emit (EvSend missing_file_response) w
      else if negb (bool_decide (fieldname f = lit "pdf")) then
        emit (EvSend internal_error_response)
             (emit (EvError (lit "Unhandled error:") unexpected_field) w)
      else
        match fileFilter f with
        | Throw _ => emit (EvSend invalid_type_response) w
        | Ok false => emit (EvSend missing_file_response) w
        | Ok true =>
            let p := scratch_path f w in
            if (fileSizeLimit <=? received f)%Z then
              emit (EvSend too_large_response)
                   (aborted p (stage p (firstn (Z.to_nat fileSizeLimit) (content f)) w))
            else
              let w1 := emit (EvLog (lit "Processing PDF: " ++ originalname f))
                             (stage p (content f) w) in
              match extraction f w with
              | Ok pdfData =>
                  emit (EvSend (mkResponse 200
                          (upload_result (staged_file f w) pdfData (toISOString (now w)))))
                       (cleanup p w1)
              | Throw e =>
                  emit (EvSend (failure_response "Failed to extract text from PDF" e))
                       (cleanup p (emit (EvError (lit "PDF processing error:") e) w1))
              end
        end
  end.

(** The response of the whole route. *)
Definition upload_response (part : option Part) (w : World) : Response :=
  match part with
  | None => missing_file_response
  | Some f =>
      if negb (nonempty (originalname f)) then missing_file_response
      else if negb (bool_decide (fieldname f = lit "pdf")) then internal_error_response
      else
        match fileFilter f with
        | Throw _ => invalid_type_response
        | Ok false => missing_file_response
        | Ok true =>
            if (fileSizeLimit <=? received f)%Z then too_large_response
            else
              match extraction f w with
              | Ok pdfData =>
                  mkResponse 200
                    (upload_result (staged_file f w) pdfData (toISOString (now w)))
              | Throw e => failure_response "Failed to extract text from PDF" e
              end
        end
  end.

(** *** POST /extract-text-url *)

Definition do_fetch (url : jsstring) : M FetchResponse :=
  fun w => (fetch url, emit (EvFetch url) w).

(** The [result] object of the URL handler. *)
Definition url_result (url filename : Value) (pdfData : PdfData) (extractedAt : jsstring)
  : list (jsstring * Value) :=
  [ "success" :- VBool true;
    "filename" :- js_or filename (str "Unknown");
    "url" :- url;
    "text" :- VStr (text pdfData);
    "metadata" :- metadata pdfData;
    "extractedAt" :- VStr extractedAt;
    "textLength" :- VNum (Z.of_nat (textLength (text pdfData)));
    "wordCount" :- VNum (Z.of_nat (wordCount (text pdfData))) ].

Definition post_extract_text_url (req_body : list (jsstring * Value)) : M unit :=
  try_catch
    (let url := get "url" req_body in
     let filename := get "filename" req_body in
     if negb (truthy url) then
       res_status_json 400
         [ "error" :- str "No PDF URL provided";
           "message" :- VStr (lit "Please provide a " ++ dq ++ lit "url" ++ dq
                              ++ lit " field with the PDF URL") ]
     else
       processedUrl <- lift (convertGoogleDriveUrl url) ;;
       console_log (lit "Processing PDF from URL: " ++ ToString url) ;;
       (if negb (strict_eq_string processedUrl url)
        then console_log (arrows ++ lit " Converted Google Drive URL to: " ++ processedUrl)
        else ret tt) ;;
       response <- do_fetch processedUrl ;;
       if negb (ok response) then
         throw (Error (lit "Failed to fetch PDF: " ++ statusText response))
       else
         dataBuffer <- lift (arrayBuffer response) ;;
         pdfData <- lift (pdfParse dataBuffer) ;;
         extractedAt <- new_Date_toISOString ;;
         let result := url_result url filename pdfData extractedAt in
         res_json result)
    (fun error =>
       console_error "PDF URL processing error:" error ;;
       res_status_json 500
         [ "error" :- str "Failed to extract text from PDF URL";
           "message" :- VStr (message error);
           "success" :- VBool false ]).

(** *** POST /generate-hmac *)

Record Hmac := mkHmac { hmac_key : list Z; hmac_data : list Z }.

(** [crypto.createHmac("sha512", key)] *)
Definition createHmac (key : Value) : Result Hmac :=
  match key with
  | VStr k => Ok (mkHmac (Crypto.utf8 k) [])
  | _ => Throw (Error (invalid_arg_message "key" key))
  end.

(** [hmac.update(data)] *)
Definition hmac_update (h : Hmac) (data : Value) : Result Hmac :=
  match data with
  | VStr d => Ok (mkHmac (hmac_key h) (hmac_data h ++ Crypto.utf8 d))
  | _ => Throw (Error (invalid_arg_message "data" data))
  end.

(** [hmac.digest("hex")] *)
Definition hmac_digest_hex (h : Hmac) : jsstring :=
  Crypto.hex (Crypto.hmac_sha512 (hmac_key h) (hmac_data h)).

(** The [result] object of the HMAC handler. *)
Definition hmac_result (data : Value) (signature generatedAt : jsstring)
  : list (jsstring * Value) :=
  [ "success" :- VBool true;
    "data" :- data;
    "signature" :- VStr signature;
    "algorithm" :- str "HMAC-SHA512";
    "generatedAt" :- VStr generatedAt;
    "dataLength" :- js_length data ].

Definition post_generate_hmac (req_body : list (jsstring * Value)) : M unit :=
  try_catch
    (let data := get "data" req_body in
     let secret := get "secret" req_body in
     if negb (truthy data) then
       res_status_json 400
         [ "error" :- str "Missing data parameter";
           "message" :- VStr (lit "Please provide a " ++ dq ++ lit "data" ++ dq
                              ++ lit " field with the data to sign");
           "success" :- VBool false ]
     else if negb (truthy secret) then
       res_status_json 400
         [ "error" :- str "Missing secret parameter";
           "message" :- VStr (lit "Please provide a " ++ dq ++ lit "secret" ++ dq
                              ++ lit " field with the signing key");
           "success" :- VBool false ]
     else
       hmac <- lift (createHmac secret) ;;
       hmac <- lift (hmac_update hmac data) ;;
       let signature := hmac_digest_hex hmac in
       generatedAt <- new_Date_toISOString ;;
       let result := hmac_result data signature generatedAt in
       console_log (lit "Generated HMAC-SHA512 signature for data of length: "
                    ++ ToString (js_length data)) ;;
       res_json result)
    (fun error =>
       console_error "HMAC generation error:" error ;;
       res_status_json 500
         [ "error" :- str "Failed to generate HMAC signature";
           "message" :- VStr (message error);
           "success" :- VBool false ]).

(** *** The URL and HMAC routes in closed form *)

Definition missing_url_response : Response :=
  mkResponse 400
    [ "error" :- str "No PDF URL provided";
      "message" :- VStr (lit "Please provide a " ++ dq ++ lit "url" ++ dq
                         ++ lit " field with the PDF URL") ].

Definition url_failure (e : JsError) : Response :=
  failure_response "Failed to extract text from PDF URL" e.

Definition fetch_status_error (r : FetchResponse) : JsError :=
  Error (lit "Failed to fetch PDF: " ++ statusText r).

Definition url_response (req_body : list (jsstring * Value)) (w : World) : Response :=
  let url := get "url" req_body in
  let filename := get "filename" req_body in
  if negb (truthy url) then missing_url_response
  else
    match convertGoogleDriveUrl url with
    | Throw e => url_failure e
    | Ok processedUrl =>
        match fetch processedUrl with
        | Throw e => url_failure e
        | Ok response =>
            if negb (ok response) then url_failure (fetch_status_error response)
            else
              match arrayBuffer response with
              | Throw e => url_failure e
              | Ok dataBuffer =>
                  match pdfParse dataBuffer with
                  | Throw e => url_failure e
                  | Ok pdfData =>
                      mkResponse 200
                        (url_result url filename pdfData (toISOString (now w)))
                  end
              end
        end
    end.

(** The URLs the route fetches. *)
Definition url_fetches (req_body : list (jsstring * Value)) : list jsstring :=
  let url := get "url" req_body in
  if negb (truthy url) then []
  else
    match convertGoogleDriveUrl url with
    | Throw _ => []
    | Ok processedUrl => [processedUrl]
    end.

Definition missing_data_response : Response :=
  mkResponse 400
    [ "error" :- str "Missing data parameter";
      "message" :- VStr (lit "Please provide a " ++ dq ++ lit "data" ++ dq
                         ++ lit " field with the data to sign");
      "success" :- VBool false ].

Definition missing_secret_response : Response :=
  mkResponse 400
    [ "error" :- str "Missing secret parameter";
      "message" :- VStr (lit "Please provide a " ++ dq ++ lit "secret" ++ dq
                         ++ lit " field with the signing key");
      "success" :- VBool false ].

Definition hmac_failure (e : JsError) : Response :=
  failure_response "Failed to generate HMAC signature" e.

Definition hmac_response (req_body : list (jsstring * Value)) (w : World) : Response :=
  let data := get "data" req_body in
  let secret := get "secret" req_body in
  if negb (truthy data) then missing_data_response
  else if negb (truthy secret) then missing_secret_response
  else
    match createHmac secret with
    | Throw e => hmac_failure e
    | Ok hmac =>
        match hmac_update hmac data with
        | Throw e => hmac_failure e
        | Ok hmac' =>
            mkResponse 200
              (hmac_result data (hmac_digest_hex hmac') (toISOString (now w)))
        end
    end.

End Server.

(** ** Sample requests and collaborators *)

Definition sample_dir : jsstring := lit "/srv/app/uploads".
Definition sample_iso (t : Z) : jsstring := lit "2024-01-01T00:00:00.000Z".
Definition sample_arg_message (name : string) (v : Value) : jsstring :=
  lit "The argument must be of type string".

Definition sample_pdf : PdfData :=
  mkPdfData (lit "Hello  PDF world") (VNum 1)
            (VObj ["Title" :- str "Resume"]) (str "1.10.100").
Definition sample_parse (dataBuffer : list Byte.byte) : Result PdfData :=
  Ok sample_pdf.

(** A parser output without info dictionary and with an empty version. *)
Definition bare_pdf : PdfData := mkPdfData (lit "x") (VNum 1) VUndefined (VStr []).
Definition bare_parse (dataBuffer : list Byte.byte) : Result PdfData :=
  Ok bare_pdf.

Definition sample_world : World := mkWorld ∅ ∅ ∅ 1704067200000 123456789 [].

Definition pdf_bytes : list Byte.byte := [Byte.x25; Byte.x50; Byte.x44; Byte.x46].
Definition pdf_part : Part :=
  mkPart (lit "pdf") (lit "resume.pdf") (lit "application/pdf") pdf_bytes.
Definition text_part : Part :=
  mkPart (lit "pdf") (lit "notes.txt") (lit "text/plain") [Byte.x68; Byte.x69].
(** A second upload, another file of the same kind. *)
Definition scan_part : Part :=
  mkPart (lit "pdf") (lit "scan.v2.pdf") (lit "application/octet-stream")
         [Byte.x25; Byte.x50].
(** A PDF of exactly [fileSizeLimit] bytes, a PDF sent under the field
    [file], and a part whose file name is empty. *)
Definition full_part : Part :=
  mkPart (lit "pdf") (lit "resume.pdf") (lit "application/pdf")
         (repeat Byte.x00 (Z.to_nat fileSizeLimit)).
Definition stray_part : Part :=
  mkPart (lit "file") (lit "resume.pdf") (lit "application/pdf") pdf_bytes.
Definition unnamed_part : Part :=
  mkPart (lit "pdf") [] (lit "application/pdf") pdf_bytes.
Definition pdf_path : jsstring :=
  lit "/srv/app/uploads/pdf-1704067200000-123456789.pdf".

Definition drive_url : jsstring :=
  lit "https://drive.google.com/file/d/1O5HE9A5OLevbdZ3VxOFi5v3agcJOuMLk/view?usp=drive_link".
Definition drive_id : jsstring := lit "1O5HE9A5OLevbdZ3VxOFi5v3agcJOuMLk".
Definition plain_url : jsstring := lit "https://example.com/document.pdf".
Definition missing_url : jsstring := lit "https://example.com/missing.pdf".
Definition dead_url : jsstring := lit "https://unreachable.invalid/document.pdf".

Definition sample_fetch (url : jsstring) : Result FetchResponse :=
  if bool_decide (url = download_prefix ++ drive_id)
  then Ok (mkFetchResponse 200 (lit "OK") (Ok pdf_bytes))
  else if bool_decide (url = missing_url)
  then Ok (mkFetchResponse 404 (lit "Not Found") (Ok []))
  else Throw (Error (lit "fetch failed")).

Definition hello_body : list (jsstring * Value) :=
  [ "data" :- str "Hello, World!"; "secret" :- str "key" ].

(** ** Vocabulary of the statements *)

(** A document identifier: a non-empty run over letters, digits,
    underscore and hyphen. *)
Definition is_id (id : jsstring) : Prop :=
  id <> [] /\ forallb is_id_char id = true.

(** [s] holds the viewer/share pattern with identifier [id] after [pre]. *)
Definition drive_link (s pre id post : jsstring) : Prop :=
  s = pre ++ drive_prefix ++ id ++ post /\ is_id id.

Definition matches_drive (s : jsstring) : Prop :=
  exists pre id post, drive_link s pre id post.

(** The identifier stops where [post] starts. *)
Definition id_ends (post : jsstring) : Prop :=
  match post with
  | [] => True
  | c :: _ => is_id_char c = false
  end.

(** Everything a handler can read is the same in both worlds; the trace
    is only ever written. *)
Definition same_state (w w' : World) : Prop :=
  files w' = files w /\ undeletable w' = undeletable w
  /\ unreadable w' = unreadable w /\ now w' = now w /\ random w' = random w.

(** [t] occurs in [msg]. *)
Definition contains (msg t : jsstring) : Prop :=
  exists a b, msg = a ++ t ++ b.

(** A comparison of the pattern [p] with the text [t] that hits two
    different code units before either of them ends. *)
Fixpoint clash (p t : jsstring) : bool :=
  match p, t with
  | a :: p', b :: t' => if a =? b then clash p' t' else true
  | _, _ => false
  end.

(** [driveRegex] clashes with [t] at each of its positions. *)
Fixpoint clash_all (t : jsstring) : bool :=
  match t with
  | [] => true
  | _ :: t' => clash drive_prefix t && clash_all t'
  end.

(** The loop of [extname] over the code units of [s], which sit at the
    indices [k], [k + 1], ... of the path, started in the state [st]. *)
Definition ext_init : ExtState := mkExt (-1) 0 (-1) true 0 false.

Definition ext_scan (st : ExtState) (k : Z) (s : jsstring) : ExtState :=
  fold_left extname_step (rev (indexed k s)) st.

(** The class [[0-9]] and the lower-case hexadecimal digits. *)
Definition is_digit (c : N) : bool := in_range 48 57 c.
Definition is_hex_digit (c : N) : bool := in_range 48 57 c || in_range 97 102 c.

(** [r] does not go on a run of code units with the property [P]. *)
Definition ends_run (P : N -> Prop) (r : jsstring) : Prop :=
  match r with
  | [] => True
  | x :: _ => ~ P x
  end.

(** The clock and the random source as a later request finds them. *)
Definition set_clock (t r : Z) (w : World) : World :=
  mkWorld (files w) (undeletable w) (unreadable w) t r (trace w).

(** Uploads served one after the other, each at its own time and with its
    own random number. *)
Definition serve_uploads (uploadsDir : jsstring)
           (pdfParse : list Byte.byte -> Result PdfData)
           (toISOString : Z -> jsstring)
           (requests : list (Z * Z * option Part)) (w : World) : World :=
  fold_left
    (fun w0 request =>
       let '(t, r, part) := request in
       run (post_extract_text uploadsDir pdfParse toISOString part)
           (set_clock t r w0))
    requests w.

(** * Properties *)

(** ** Word count *)

Lemma nonempty_rev (tok : jsstring) : nonempty (rev tok) = nonempty tok.
Proof. unfold nonempty. now rewrite length_rev. Qed.

Lemma split_filter_words (s : jsstring) :
  (forall tok, List.filter nonempty (split_tok tok s) = word_runs tok s)
  /\ List.filter nonempty (split_sep s) = word_runs [] s.
Proof.
  induction s as [|c s [IHtok IHsep]]; split; intros; simpl.
  - rewrite nonempty_rev. now destruct tok.
  - reflexivity.
  - destruct (is_ws c).
    + simpl. rewrite nonempty_rev, IHsep. now destruct tok.
    + apply IHtok.
  - destruct (is_ws c); [apply IHsep | apply IHtok].
Qed.

Lemma wordCount_words (s : jsstring) : wordCount s = length (words s).
Proof.
  unfold wordCount, split_ws, words.
  now rewrite (proj1 (split_filter_words s)).
Qed.

Lemma word_runs_blank (s : jsstring) :
  forallb is_ws s = true -> word_runs [] s = [].
Proof.
  induction s as [|c s IH]; simpl; [reflexivity|].
  destruct (is_ws c); simpl; [exact IH | discriminate].
Qed.

Lemma wordCount_blank (s : jsstring) :
  forallb is_ws s = true -> wordCount s = 0%nat.
Proof.
  intros H. now rewrite wordCount_words; unfold words; rewrite word_runs_blank.
Qed.

Lemma forallb_rev {A} (f : A -> bool) (l : list A) :
  forallb f (rev l) = forallb f l.
Proof.
  induction l as [|a l IH]; simpl; [reflexivity|].
  rewrite forallb_app, IH. simpl. rewrite andb_true_r. apply andb_comm.
Qed.

(** The words are exactly the text with its whitespace taken out, cut at
    the whitespace runs: no word is empty, none holds whitespace, and
    together they are the non-whitespace code units in order. *)
Lemma word_runs_sound (s cur : jsstring) :
  forallb (fun c => negb (is_ws c)) cur = true ->
  Forall (fun w => w <> [] /\ forallb (fun c => negb (is_ws c)) w = true)
         (word_runs cur s)
  /\ concat (word_runs cur s) = rev cur ++ List.filter (fun c => negb (is_ws c)) s.
Proof.
  revert cur. induction s as [|c s IH]; intros cur Hcur; simpl.
  - destruct cur as [|a cur]; simpl.
    + split; [constructor | reflexivity].
    + split.
      * constructor; [|constructor]. split.
        -- intros E. apply (f_equal (@length N)) in E.
           rewrite length_app in E. simpl in E. lia.
        -- rewrite forallb_app, forallb_rev. simpl in *.
           apply andb_true_iff in Hcur as [Ha Hcur]. now rewrite Hcur, Ha.
      * now rewrite !app_nil_r.
  - destruct (is_ws c) eqn:Hc; simpl.
    + destruct (IH [] eq_refl) as [IH1 IH2].
      destruct cur as [|a cur]; simpl.
      * split; [exact IH1 | exact IH2].
      * split.
        -- constructor; [|exact IH1]. split.
           ++ intros E. apply (f_equal (@length N)) in E.
              rewrite length_app in E. simpl in E. lia.
           ++ rewrite forallb_app. simpl. rewrite forallb_rev.
              simpl in Hcur. apply andb_true_iff in Hcur as [Ha Hcur].
              now rewrite Hcur, Ha.
        -- now rewrite IH2.
    + assert (Hcur' : forallb (fun c => negb (is_ws c)) (c :: cur) = true)
        by (simpl; now rewrite Hc).
      destruct (IH (c :: cur) Hcur') as [IH1 IH2]. split; [exact IH1|].
      rewrite IH2. simpl. now rewrite <- app_assoc.
Qed.

(** ** The URL resolver *)

Lemma strip_prefix_Some (p s r : jsstring) :
  strip_prefix p s = Some r <-> s = p ++ r.
Proof.
  revert s. induction p as [|a p IH]; intros s; simpl.
  - split; congruence.
  - destruct s as [|b s].
    + split; discriminate.
    + destruct (N.eqb_spec a b) as [->|Hne].
      * rewrite IH. split; congruence.
      * split; [discriminate | congruence].
Qed.

Lemma take_while_split (f : N -> bool) (s : jsstring) :
  exists post,
    s = take_while f s ++ post
    /\ forallb f (take_while f s) = true
    /\ match post with [] => True | c :: _ => f c = false end.
Proof.
  induction s as [|c s (post & Hs & Hall & Hend)]; simpl.
  - exists []. easy.
  - destruct (f c) eqn:Hc.
    + exists post. simpl. rewrite Hc, Hall. split; [congruence | easy].
    + exists (c :: s). easy.
Qed.

Lemma take_while_app (f : N -> bool) (id post : jsstring) :
  id <> [] -> forallb f id = true -> take_while f (id ++ post) <> [].
Proof.
  destruct id as [|c id]; [easy|]. simpl. intros _ H.
  apply andb_true_iff in H as [-> _]. discriminate.
Qed.

Lemma match_here_Some (s id : jsstring) :
  match_here s = Some id ->
  exists post, drive_link s [] id post /\ id_ends post.
Proof.
  unfold match_here, drive_link, is_id, id_ends.
  destruct (strip_prefix drive_prefix s) as [rest|] eqn:Hp; [|discriminate].
  apply strip_prefix_Some in Hp.
  destruct (take_while_split is_id_char rest) as (post & Hrest & Hall & Hend).
  destruct (take_while is_id_char rest) as [|c tw] eqn:Htw; [discriminate|].
  intros [= <-]. exists post. repeat split; try easy.
  rewrite app_nil_l. now rewrite Hp, Hrest.
Qed.

Lemma match_here_None (s : jsstring) :
  match_here s = None -> forall id post, ~ drive_link s [] id post.
Proof.
  unfold match_here, drive_link, is_id. intros H id post [Hs [Hne Hall]].
  rewrite app_nil_l in Hs. apply strip_prefix_Some in Hs. rewrite Hs in H.
  pose proof (take_while_app is_id_char id post Hne Hall) as Htw.
  destruct (take_while is_id_char (id ++ post)); [easy | discriminate].
Qed.

Lemma regex_match_eq (s : jsstring) :
  regex_match s =
  match match_here s with
  | Some fileId => Some fileId
  | None => match s with [] => None | _ :: s' => regex_match s' end
  end.
Proof. destruct s; reflexivity. Qed.

Lemma drive_link_cons (c : N) (s pre id post : jsstring) :
  drive_link s pre id post -> drive_link (c :: s) (c :: pre) id post.
Proof. intros [-> H]. now split. Qed.

Lemma drive_link_uncons (c : N) (s pre id post : jsstring) :
  drive_link (c :: s) pre id post ->
  pre = [] \/ exists pre', pre = c :: pre' /\ drive_link s pre' id post.
Proof.
  intros [Hs H]. destruct pre as [|a pre]; [now left|right].
  rewrite <- app_comm_cons in Hs. injection Hs as <- ->. now exists pre.
Qed.

Lemma regex_match_Some (s id : jsstring) :
  regex_match s = Some id ->
  exists pre post,
    drive_link s pre id post /\ id_ends post
    /\ forall pre' id' post', drive_link s pre' id' post' ->
         (length pre <= length pre')%nat.
Proof.
  induction s as [|c s IH]; rewrite regex_match_eq.
  - destruct (match_here []) eqn:Hm; [|discriminate].
    intros [= <-]. destruct (match_here_Some _ _ Hm) as (post & Hl & He).
    exists [], post. split; [exact Hl|]. split; [exact He|].
      intros; simpl; lia.
  - destruct (match_here (c :: s)) eqn:Hm.
    + intros [= <-]. destruct (match_here_Some _ _ Hm) as (post & Hl & He).
      exists [], post. split; [exact Hl|]. split; [exact He|].
      intros; simpl; lia.
    + intros H. destruct (IH H) as (pre & post & Hl & He & Hfirst).
      exists (c :: pre), post. split; [now apply drive_link_cons|].
      split; [exact He|]. intros pre' id' post' Hl'.
      destruct (drive_link_uncons _ _ _ _ _ Hl') as [-> | (p & -> & Hp)].
      * now apply match_here_None with (id := id') (post := post') in Hm.
      * simpl. apply Hfirst in Hp. lia.
Qed.

Lemma regex_match_None (s : jsstring) :
  regex_match s = None -> ~ matches_drive s.
Proof.
  induction s as [|c s IH]; rewrite regex_match_eq.
  - destruct (match_here []) eqn:Hm; [discriminate|].
    intros _ (pre & id & post & Hl).
    destruct pre as [|a pre].
    + now apply (match_here_None _ Hm id post).
    + destruct Hl as [Hs _]. discriminate.
  - destruct (match_here (c :: s)) eqn:Hm; [discriminate|].
    intros H (pre & id & post & Hl).
    destruct (drive_link_uncons _ _ _ _ _ Hl) as [-> | (p & -> & Hp)].
    + now apply (match_here_None _ Hm id post).
    + apply (IH H). now exists p, id, post.
Qed.

(** C3. On every string the URL resolver returns a string and raises no
    exception.  When the string holds the Google Drive viewer/share
    pattern, the result is the direct-download URL built from the
    identifier of the first occurrence, read up to the first code unit
    that is not a letter, digit, underscore or hyphen.  Every other string
    is returned unchanged. *)
Theorem convertGoogleDriveUrl_spec (s : jsstring) :
  (exists r, convertGoogleDriveUrl (VStr s) = Ok r)
  /\ (matches_drive s ->
      exists pre id post,
        drive_link s pre id post /\ id_ends post
        /\ (forall pre' id' post', drive_link s pre' id' post' ->
             (length pre <= length pre')%nat)
        /\ convertGoogleDriveUrl (VStr s) = Ok (download_prefix ++ id))
  /\ (~ matches_drive s -> convertGoogleDriveUrl (VStr s) = Ok s).
Proof.
  unfold convertGoogleDriveUrl.
  destruct (regex_match s) as [id|] eqn:Hm.
  - destruct (regex_match_Some _ _ Hm) as (pre & post & Hl & He & Hfirst).
    split; [eauto|]. split.
    + intros _. exists pre, id, post. easy.
    + intros Hno. exfalso. apply Hno. now exists pre, id, post.
  - split; [eauto|]. split; [|reflexivity].
    intros Hyes. now apply regex_match_None in Hm.
Qed.

(** ** Traces *)

Lemma sends_app (a b : list Event) : sends (a ++ b) = sends a ++ sends b.
Proof. apply flat_map_app. Qed.

Lemma fetches_app (a b : list Event) : fetches (a ++ b) = fetches a ++ fetches b.
Proof. apply flat_map_app. Qed.

Lemma responses_emit (e : Event) (w : World) :
  responses (emit e w) = responses w ++ sends [e].
Proof. unfold responses, emit. simpl trace. apply sends_app. Qed.

Lemma responses_set_files fs (w : World) :
  responses (set_files fs w) = responses w.
Proof. reflexivity. Qed.

(** Symbolic execution of a handler: unfold the monad, split on every
    test and every fallible call, and compare the traces. *)
Ltac exec_split :=
  match goal with
  | |- context [if ?b then _ else _] => destruct b eqn:?
  | |- context [match ?x with Ok _ => _ | Throw _ => _ end] => destruct x eqn:?
  end.

Ltac exec_route :=
  unfold try_catch, bind, lift, ret, throw, console_log, console_error,
    res_json, res_status_json, do_fetch, new_Date_toISOString,
    responses, fetched, emit;
  repeat (cbn beta iota zeta delta [fst snd trace negb]; exec_split);
  cbn beta iota zeta delta
    [fst snd trace files undeletable unreadable now random negb];
  rewrite ?sends_app, ?fetches_app;
  cbn [sends fetches flat_map app];
  rewrite ?app_nil_r, <- ?app_assoc;
  repeat split; try reflexivity; try congruence.

(** ** The routes *)

Section Properties.

Variable uploadsDir : jsstring.
Variable pdfParse : list Byte.byte -> Result PdfData.
Variable fetch : jsstring -> Result FetchResponse.
Variable toISOString : Z -> jsstring.
Variable invalid_arg_message : string -> Value -> jsstring.

Local Abbreviation post := (post_extract_text uploadsDir pdfParse toISOString).
Local Abbreviation post_url := (post_extract_text_url pdfParse fetch toISOString).
Local Abbreviation post_hmac := (post_generate_hmac toISOString invalid_arg_message).
Local Abbreviation upload_resp := (upload_response uploadsDir pdfParse toISOString).
Local Abbreviation url_resp := (url_response pdfParse fetch toISOString).
Local Abbreviation hmac_resp := (hmac_response toISOString invalid_arg_message).
Local Abbreviation handler := (extract_text_handler pdfParse toISOString).
Local Abbreviation upload := (upload_single uploadsDir).
Local Abbreviation path_of := (scratch_path uploadsDir).

Lemma cleanupFile_eq (p : jsstring) (w : World) :
  cleanupFile p w = (Ok tt, cleanup p w).
Proof.
  unfold cleanupFile, cleanup, try_catch, bind, existsSync, unlinkSync, ret,
    console_error, unlinked.
  destruct (files w !! p) as [data|] eqn:Hp.
  - rewrite bool_decide_eq_true_2 by eauto.
    rewrite Hp. now destruct (bool_decide (p ∈ undeletable w)).
  - rewrite bool_decide_eq_false_2; [reflexivity|].
    intros [x Hx]. discriminate.
Qed.

Lemma storage_removeFile_eq (p : jsstring) (w : World) :
  storage_removeFile p w = (Ok tt, aborted p w).
Proof.
  unfold storage_removeFile, aborted, try_catch, unlinkSync, ret, unlinked.
  destruct (files w !! p); [|reflexivity].
  now destruct (bool_decide (p ∈ undeletable w)).
Qed.

Lemma scratch_path_nonempty (f : Part) (w : World) :
  nonempty (path_of f w) = true.
Proof.
  unfold nonempty, scratch_path. rewrite !length_app.
  change (length (lit "/")) with 1%nat.
  apply Nat.ltb_lt. lia.
Qed.

Lemma nonempty_true (s : jsstring) : s <> [] -> nonempty s = true.
Proof. now destruct s. Qed.

Lemma post_extract_text_eq (part : option Part) (w : World) :
  post part w = (Ok tt, upload_world uploadsDir pdfParse toISOString part w).
Proof.
  unfold post_extract_text, upload_single, upload_world.
  destruct part as [f|]; [|reflexivity].
  destruct (nonempty (originalname f)); cbn [negb]; [|reflexivity].
  destruct (bool_decide (fieldname f = lit "pdf")) eqn:Hn; cbn [negb];
    [|reflexivity].
  apply bool_decide_eq_true_1 in Hn.
  destruct (fileFilter f) as [[|]|e] eqn:Hf.
  - unfold bind at 1 2. unfold storage_filename. rewrite Hn.
    fold (scratch_name f w). fold (path_of f w). fold (received f).
    destruct (fileSizeLimit <=? received f)%Z.
    + unfold bind at 1 2, writeFile. fold (stage (path_of f w)
        (firstn (Z.to_nat fileSizeLimit) (content f)) w).
      now rewrite storage_removeFile_eq.
    + unfold bind at 1, writeFile. fold (stage (path_of f w) (content f) w).
      unfold ret, extract_text_handler, file_path, file_originalname.
      unfold try_catch, bind at 1 2, console_log, readFileSync.
      unfold extraction.
      assert (Hlook : files (emit (EvLog (lit "Processing PDF: " ++ originalname f))
                               (stage (path_of f w) (content f) w))
                      !! path_of f w = Some (content f))
        by apply lookup_insert_eq.
      rewrite Hlook.
      change (unreadable (emit _ (stage _ _ w))) with (unreadable w).
      destruct (bool_decide (path_of f w ∈ unreadable w)).
      * unfold bind, console_error. rewrite scratch_path_nonempty.
        now rewrite cleanupFile_eq.
      * unfold bind at 1, lift.
        destruct (pdfParse (content f)) as [pdfData|e].
        -- unfold bind at 1, new_Date_toISOString. unfold bind.
           now rewrite cleanupFile_eq.
        -- unfold bind, console_error. rewrite scratch_path_nonempty.
           now rewrite cleanupFile_eq.
  - reflexivity.
  - unfold ret, bind, error_middleware.
    unfold fileFilter in Hf.
    destruct (_ || _); [discriminate|]. injection Hf as <-.
    reflexivity.
Qed.

Lemma run_post (part : option Part) (w : World) :
  run (post part) w = upload_world uploadsDir pdfParse toISOString part w.
Proof. unfold run. now rewrite post_extract_text_eq. Qed.

Lemma responses_cleanup (p : jsstring) (w : World) :
  responses (cleanup p w) = responses w.
Proof.
  unfold cleanup. destruct (files w !! p); [|reflexivity].
  destruct (bool_decide _); unfold unlinked;
    rewrite responses_emit; simpl; now rewrite app_nil_r.
Qed.

Lemma responses_aborted (p : jsstring) (w : World) :
  responses (aborted p w) = responses w.
Proof.
  unfold aborted. destruct (files w !! p); [|reflexivity].
  destruct (bool_decide _); [reflexivity|]. unfold unlinked.
  rewrite responses_emit. simpl. now rewrite app_nil_r.
Qed.

Lemma responses_stage (p : jsstring) data (w : World) :
  responses (stage p data w) = responses w.
Proof. unfold stage. rewrite responses_emit. simpl. now rewrite app_nil_r. Qed.

Lemma responses_silent (e : Event) (w : World) :
  sends [e] = [] -> responses (emit e w) = responses w.
Proof. intros H. now rewrite responses_emit, H, app_nil_r. Qed.

Lemma upload_responses (part : option Part) (w : World) :
  responses (run (post part) w) = responses w ++ [upload_resp part w].
Proof.
  rewrite run_post. unfold upload_world, upload_response.
  destruct part as [f|]; [|apply responses_emit].
  destruct (negb (nonempty (originalname f))); [apply responses_emit|].
  destruct (negb (bool_decide (fieldname f = lit "pdf"))).
  { now rewrite responses_emit, responses_silent. }
  destruct (fileFilter f) as [[|]|e]; try apply responses_emit.
  destruct (fileSizeLimit <=? received f)%Z.
  - now rewrite responses_emit, responses_aborted, responses_stage.
  - destruct (extraction uploadsDir pdfParse f w).
    + rewrite responses_emit, responses_cleanup, responses_silent by easy.
      now rewrite responses_stage.
    + rewrite responses_emit, responses_cleanup, !responses_silent by easy.
      now rewrite responses_stage.
Qed.

Lemma url_outcome (req_body : list (jsstring * Value)) (w : World) :
  responses (run (post_url req_body) w) = responses w ++ [url_resp req_body w]
  /\ fetched (run (post_url req_body) w) = fetched w ++ url_fetches req_body.
Proof.
  unfold run, post_extract_text_url, url_response, url_fetches.
  exec_route.
Qed.

Lemma hmac_outcome (req_body : list (jsstring * Value)) (w : World) :
  responses (run (post_hmac req_body) w) = responses w ++ [hmac_resp req_body w]
  /\ same_state w (run (post_hmac req_body) w)
  /\ fetched (run (post_hmac req_body) w) = fetched w.
Proof.
  unfold run, post_generate_hmac, hmac_response, same_state.
  exec_route.
Qed.

(** *** Validation of an upload *)

Lemma fileFilter_accepts (f : Part) :
  mimetype f = lit "application/pdf"
  \/ toLowerCase (extname (originalname f)) = lit ".pdf" ->
  fileFilter f = Ok true.
Proof.
  unfold fileFilter. intros [H|H].
  - now rewrite (bool_decide_eq_true_2 _ H).
  - rewrite (bool_decide_eq_true_2 _ H). now rewrite orb_true_r.
Qed.

Lemma fileFilter_rejects (f : Part) :
  mimetype f <> lit "application/pdf" ->
  toLowerCase (extname (originalname f)) <> lit ".pdf" ->
  fileFilter f = Throw (Error (lit "Only PDF files are allowed!")).
Proof.
  unfold fileFilter. intros H1 H2.
  now rewrite (bool_decide_eq_false_2 _ H1), (bool_decide_eq_false_2 _ H2).
Qed.

Lemma upload_staged (f : Part) (w : World) :
  originalname f <> [] ->
  fieldname f = lit "pdf" ->
  fileFilter f = Ok true ->
  (received f < fileSizeLimit)%Z ->
  upload (lit "pdf") (Some f) w
  = (Ok (Next (Some (staged_file uploadsDir f w))),
     stage (path_of f w) (content f) w).
Proof.
  intros Hname Hfield Hacc Hsz. unfold upload_single.
  rewrite (nonempty_true _ Hname), (bool_decide_eq_true_2 _ Hfield), Hacc.
  cbn [negb]. unfold bind at 1 2, storage_filename. rewrite Hfield.
  fold (scratch_name f w). fold (path_of f w). fold (received f).
  destruct (Z.leb_spec fileSizeLimit (received f)); [lia|].
  reflexivity.
Qed.

(** The answer to a named file under [pdf]: the filter, the limit and the
    extraction decide. *)
Lemma upload_response_named (f : Part) (w : World) :
  originalname f <> [] ->
  fieldname f = lit "pdf" ->
  upload_resp (Some f) w
  = match fileFilter f with
    | Throw _ => invalid_type_response
    | Ok false => missing_file_response
    | Ok true =>
        if (fileSizeLimit <=? received f)%Z then too_large_response
        else
          match extraction uploadsDir pdfParse f w with
          | Ok pdfData =>
              mkResponse 200
                (upload_result (staged_file uploadsDir f w) pdfData
                               (toISOString (now w)))
          | Throw e => failure_response "Failed to extract text from PDF" e
          end
    end.
Proof.
  intros Hname Hfield. unfold upload_response.
  now rewrite (nonempty_true _ Hname), (bool_decide_eq_true_2 _ Hfield).
Qed.

(** A named file under another field is stopped by multer, and the error
    middleware, which does not know that error, logs it and answers with
    its generic 500. *)
Lemma upload_unexpected_field (f : Part) (w : World) :
  originalname f <> [] ->
  fieldname f <> lit "pdf" ->
  upload (lit "pdf") (Some f) w = (Ok (NextErr unexpected_field), w)
  /\ run (post (Some f)) w
     = emit (EvSend internal_error_response)
            (emit (EvError (lit "Unhandled error:") unexpected_field) w).
Proof.
  intros Hname Hfield. split.
  - unfold upload_single.
    now rewrite (nonempty_true _ Hname), (bool_decide_eq_false_2 _ Hfield).
  - rewrite run_post. unfold upload_world.
    now rewrite (nonempty_true _ Hname), (bool_decide_eq_false_2 _ Hfield).
Qed.

(** A part without a file name is skipped, whatever its field, its type
    and its length. *)
Lemma upload_unnamed (f : Part) (w : World) :
  originalname f = [] ->
  upload (lit "pdf") (Some f) w = (Ok (Next None), w)
  /\ run (post (Some f)) w = emit (EvSend missing_file_response) w.
Proof.
  intros Hname. split.
  - unfold upload_single. now rewrite Hname.
  - rewrite run_post. unfold upload_world. now rewrite Hname.
Qed.

(** C4 (amended). Validation of an upload that carries at most one file
    part.  No file part, or a part without a file name, gives 400 "No PDF
    file uploaded".  A named file under [pdf] whose content type is not
    application/pdf and whose extension is not .pdf (compared in lower
    case) gives 400 "Only PDF files are allowed".  A named file under [pdf]
    of an accepted type whose length reaches 10 MiB gives 400 "PDF file
    size must be less than 10MB".  A named file under [pdf] of an accepted
    type with fewer bytes than 10 MiB is staged with all its bytes and
    handed to the extraction handler, whose answer is the extraction result
    or the extraction failure. *)
Theorem upload_validation (part : option Part) (w : World) :
  (part = None \/ (exists f, part = Some f /\ originalname f = []) ->
   responses (run (post part) w) = responses w ++ [missing_file_response]
   /\ status missing_file_response = 400%Z
   /\ get "error" (body missing_file_response) = str "No PDF file uploaded")
  /\ (forall f, part = Some f ->
        originalname f <> [] ->
        fieldname f = lit "pdf" ->
        mimetype f <> lit "application/pdf" ->
        toLowerCase (extname (originalname f)) <> lit ".pdf" ->
        responses (run (post part) w) = responses w ++ [invalid_type_response]
        /\ status invalid_type_response = 400%Z
        /\ get "message" (body invalid_type_response)
           = str "Only PDF files are allowed")
  /\ (forall f, part = Some f ->
        originalname f <> [] ->
        fieldname f = lit "pdf" ->
        mimetype f = lit "application/pdf"
        \/ toLowerCase (extname (originalname f)) = lit ".pdf" ->
        (fileSizeLimit <= received f)%Z ->
        responses (run (post part) w) = responses w ++ [too_large_response]
        /\ status too_large_response = 400%Z
        /\ get "message" (body too_large_response)
           = str "PDF file size must be less than 10MB")
  /\ (forall f, part = Some f ->
        originalname f <> [] ->
        fieldname f = lit "pdf" ->
        mimetype f = lit "application/pdf"
        \/ toLowerCase (extname (originalname f)) = lit ".pdf" ->
        (received f < fileSizeLimit)%Z ->
        exists w1,
          upload (lit "pdf") part w
          = (Ok (Next (Some (staged_file uploadsDir f w))), w1)
          /\ files w1 !! path_of f w = Some (content f)
          /\ post part w = handler (Some (staged_file uploadsDir f w)) w1
          /\ responses (run (post part) w) = responses w ++
               [match extraction uploadsDir pdfParse f w with
                | Ok pdfData =>
                    mkResponse 200
                      (upload_result (staged_file uploadsDir f w) pdfData
                                     (toISOString (now w)))
                | Throw e => failure_response "Failed to extract text from PDF" e
                end]).
Proof.
  rewrite !upload_responses.
  split; [|split; [|split]].
  - intros [-> | (f & -> & Hname)]; [easy|].
    unfold upload_response. now rewrite Hname.
  - intros f -> Hname Hfield H1 H2.
    rewrite (upload_response_named f w Hname Hfield).
    now rewrite (fileFilter_rejects f H1 H2).
  - intros f -> Hname Hfield Hacc Hsz.
    rewrite (upload_response_named f w Hname Hfield).
    rewrite (fileFilter_accepts f Hacc).
    destruct (Z.leb_spec fileSizeLimit (received f)); [easy|lia].
  - intros f -> Hname Hfield Hacc Hsz.
    pose proof (fileFilter_accepts f Hacc) as Hf.
    exists (stage (path_of f w) (content f) w).
    split; [now apply upload_staged|].
    split; [apply lookup_insert_eq|]. split.
    + unfold post_extract_text, bind at 1. now rewrite upload_staged.
    + rewrite (upload_response_named f w Hname Hfield), Hf.
      destruct (Z.leb_spec fileSizeLimit (received f)); [lia|reflexivity].
Qed.

(** *** Removal of the staged file *)

Lemma cleanup_staged (p : jsstring) data (w : World) :
  files w !! p = Some data ->
  cleanup p w
  = if bool_decide (p ∈ undeletable w)
    then emit (EvError (lit "Error cleaning up file:") eperm) w
    else unlinked p w.
Proof. unfold cleanup. now intros ->. Qed.

Lemma aborted_staged (p : jsstring) data (w : World) :
  files w !! p = Some data ->
  aborted p w = if bool_decide (p ∈ undeletable w) then w else unlinked p w.
Proof. unfold aborted. now intros ->. Qed.

Lemma upload_response_set_undeletable (u : gset jsstring) part (w : World) :
  upload_resp part (set_undeletable u w) = upload_resp part w.
Proof. reflexivity. Qed.

Ltac only_write :=
  let H := fresh in
  intros ? H; simpl in H;
  repeat (destruct H as [H|H]; [try discriminate H|]); try contradiction;
  injection H as <-.

Lemma upload_trace (part : option Part) (w : World) :
  exists evs,
    trace (run (post part) w) = trace w ++ evs ++ [EvSend (upload_resp part w)]
    /\ sends evs = []
    /\ (forall p, In (EvWrite p) evs -> p ∉ undeletable w ->
         In (EvUnlink p) evs /\ files (run (post part) w) !! p = None)
    /\ (forall p, In (EvWrite p) evs -> p ∈ undeletable w ->
         ~ In (EvUnlink p) evs /\ is_Some (files (run (post part) w) !! p)).
Proof using Type.
  clear fetch invalid_arg_message.
  rewrite run_post. unfold upload_world, upload_response.
  destruct part as [f|]; [|exists []; now repeat split].
  destruct (negb (nonempty (originalname f))); [exists []; now repeat split|].
  destruct (negb (bool_decide (fieldname f = lit "pdf"))).
  { exists [EvError (lit "Unhandled error:") unexpected_field].
    split; [|split; [reflexivity|]].
    - cbn [trace emit]. now rewrite <- !app_assoc.
    - split; intros p [Hp|[]]; discriminate Hp. }
  destruct (fileFilter f) as [[|]|e]; try (exists []; now repeat split).
  destruct (fileSizeLimit <=? received f)%Z.
  - rewrite (aborted_staged _ (firstn (Z.to_nat fileSizeLimit) (content f)))
      by apply lookup_insert_eq.
    cbn [undeletable stage emit set_files].
    destruct (bool_decide (path_of f w ∈ undeletable w)) eqn:Hu.
    + exists [EvWrite (path_of f w)]. split; [|split].
      * simpl. now rewrite <- app_assoc.
      * reflexivity.
      * split.
        { only_write. intros Hp. now apply bool_decide_eq_true_1 in Hu. }
        { only_write. intros _. split; [simpl; intuition discriminate|].
          unfold is_Some. eexists. apply lookup_insert_eq. }
    + exists [EvWrite (path_of f w); EvUnlink (path_of f w)]. split; [|split].
      * simpl. now rewrite <- !app_assoc.
      * reflexivity.
      * split.
        { only_write. intros _. split; [simpl; tauto|]. apply lookup_delete_eq. }
        { only_write. intros Hp. now apply bool_decide_eq_false_1 in Hu. }
  - destruct (extraction uploadsDir pdfParse f w) as [d|e].
    + rewrite (cleanup_staged _ (content f)) by apply lookup_insert_eq.
      cbn [undeletable stage emit set_files].
      destruct (bool_decide (path_of f w ∈ undeletable w)) eqn:Hu.
      * eexists [EvWrite (path_of f w); EvLog _; EvError _ _]. split; [|split].
        -- simpl. now rewrite <- !app_assoc.
        -- reflexivity.
        -- split.
           { only_write. intros Hp. now apply bool_decide_eq_true_1 in Hu. }
           { only_write. intros _. split; [simpl; intuition discriminate|].
             unfold is_Some. eexists. apply lookup_insert_eq. }
      * eexists [EvWrite (path_of f w); EvLog _; EvUnlink (path_of f w)].
        split; [|split].
        -- simpl. now rewrite <- !app_assoc.
        -- reflexivity.
        -- split.
           { only_write. intros _. split; [simpl; tauto|]. apply lookup_delete_eq. }
           { only_write. intros Hp. now apply bool_decide_eq_false_1 in Hu. }
    + rewrite (cleanup_staged _ (content f)) by apply lookup_insert_eq.
      cbn [undeletable stage emit set_files].
      destruct (bool_decide (path_of f w ∈ undeletable w)) eqn:Hu.
      * eexists [EvWrite (path_of f w); EvLog _; EvError _ _; EvError _ _].
        split; [|split].
        -- simpl. now rewrite <- !app_assoc.
        -- reflexivity.
        -- split.
           { only_write. intros Hp. now apply bool_decide_eq_true_1 in Hu. }
           { only_write. intros _. split; [simpl; intuition discriminate|].
             unfold is_Some. eexists. apply lookup_insert_eq. }
      * eexists [EvWrite (path_of f w); EvLog _; EvError _ _;
                 EvUnlink (path_of f w)].
        split; [|split].
        -- simpl. now rewrite <- !app_assoc.
        -- reflexivity.
        -- split.
           { only_write. intros _. split; [simpl; tauto|]. apply lookup_delete_eq. }
           { only_write. intros Hp. now apply bool_decide_eq_false_1 in Hu. }
Qed.

(** C1 (amended). Every request to POST /extract-text sends exactly one
    response, as the last thing it does.  A file staged in the scratch
    directory for the request is removed before the response is sent, on
    the success path and on every failure path, provided its removal does
    not fail.  When the removal fails the file stays in the scratch
    directory, and the response is the one that is sent when the removal
    succeeds. *)
Theorem staged_file_cleanup (part : option Part) (w : World) :
  exists evs r,
    trace (run (post part) w) = trace w ++ evs ++ [EvSend r]
    /\ sends evs = []
    /\ (forall p, In (EvWrite p) evs -> p ∉ undeletable w ->
         In (EvUnlink p) evs /\ files (run (post part) w) !! p = None)
    /\ (forall p, In (EvWrite p) evs -> p ∈ undeletable w ->
         ~ In (EvUnlink p) evs /\ is_Some (files (run (post part) w) !! p))
    /\ (forall u, responses (run (post part) (set_undeletable u w))
                  = responses w ++ [r]).
Proof using Type.
  destruct (upload_trace part w) as (evs & Ht & Hs & Hrem & Hkeep).
  exists evs, (upload_resp part w). repeat split; try easy.
  - now apply Hrem.
  - now apply Hrem.
  - now apply Hkeep.
  - now apply Hkeep.
  - intros u. now rewrite upload_responses.
Qed.

(** *** Success responses *)

Lemma last_response (l : list Response) (r r' : Response) :
  l ++ [r] = l ++ [r'] -> r = r'.
Proof. intros H. apply app_inv_head in H. congruence. Qed.

Lemma upload_success (part : option Part) (w : World) :
  get "success" (body (upload_resp part w)) = VBool true ->
  exists f pdfData,
    part = Some f
    /\ (received f < fileSizeLimit)%Z
    /\ extraction uploadsDir pdfParse f w = Ok pdfData
    /\ upload_resp part w
       = mkResponse 200 (upload_result (staged_file uploadsDir f w) pdfData
                                       (toISOString (now w))).
Proof.
  unfold upload_response.
  destruct part as [f|]; [|discriminate].
  destruct (negb (nonempty (originalname f))); [discriminate|].
  destruct (negb (bool_decide (fieldname f = lit "pdf"))); [discriminate|].
  destruct (fileFilter f) as [[|]|e]; try discriminate.
  destruct (Z.leb_spec fileSizeLimit (received f)); [discriminate|].
  destruct (extraction uploadsDir pdfParse f w) as [d|e] eqn:He; [|discriminate].
  intros _. now exists f, d.
Qed.

Lemma url_success (req_body : list (jsstring * Value)) (w : World) :
  get "success" (body (url_resp req_body w)) = VBool true ->
  exists processedUrl response dataBuffer pdfData,
    truthy (get "url" req_body) = true
    /\ convertGoogleDriveUrl (get "url" req_body) = Ok processedUrl
    /\ fetch processedUrl = Ok response
    /\ arrayBuffer response = Ok dataBuffer
    /\ pdfParse dataBuffer = Ok pdfData
    /\ url_resp req_body w
       = mkResponse 200 (url_result (get "url" req_body) (get "filename" req_body)
                                    pdfData (toISOString (now w))).
Proof.
  unfold url_response.
  destruct (truthy (get "url" req_body)); [|discriminate]. simpl negb. cbv iota.
  destruct (convertGoogleDriveUrl _) as [u|e] eqn:Hu; [|discriminate].
  destruct (fetch u) as [resp|e] eqn:Hf; [|discriminate].
  destruct (ok resp); [|discriminate]. simpl negb. cbv iota.
  destruct (arrayBuffer resp) as [data|e] eqn:Ha; [|discriminate].
  destruct (pdfParse data) as [d|e] eqn:Hd; [|discriminate].
  intros _. now exists u, resp, data, d.
Qed.

(** C2. In a success response of either mode, textLength is the number
    of code units of the text and wordCount is the number of non-empty
    pieces of the split of the text on whitespace runs.  These pieces are
    the words of the text: none is empty, none holds whitespace, and in
    order they make up the text without its whitespace.  wordCount is 0
    for a text that is empty or only whitespace. *)
Theorem success_text_counts (w : World) (r : Response) :
  ((exists part, responses (run (post part) w) = responses w ++ [r])
   \/ (exists req_body, responses (run (post_url req_body) w) = responses w ++ [r])) ->
  get "success" (body r) = VBool true ->
  exists t,
    get "text" (body r) = VStr t
    /\ get "textLength" (body r) = VNum (Z.of_nat (length t))
    /\ get "wordCount" (body r)
       = VNum (Z.of_nat (length (List.filter nonempty (split_ws t))))
    /\ List.filter nonempty (split_ws t) = words t
    /\ Forall (fun word => word <> []
                          /\ forallb (fun c => negb (is_ws c)) word = true)
              (words t)
    /\ concat (words t) = List.filter (fun c => negb (is_ws c)) t
    /\ (forallb is_ws t = true -> get "wordCount" (body r) = VNum 0).
Proof.
  intros [[part H]|[req_body H]] Hok.
  - rewrite upload_responses in H. apply last_response in H. subst r.
    destruct (upload_success _ _ Hok) as (f & d & _ & _ & _ & ->).
    exists (text d). do 3 (split; [reflexivity|]).
    split; [apply (proj1 (split_filter_words (text d)))|].
    split; [apply (word_runs_sound (text d) [] eq_refl)|].
    split; [apply (word_runs_sound (text d) [] eq_refl)|].
    intros Hb. change (get "wordCount" _) with (VNum (Z.of_nat (wordCount (text d)))).
    now rewrite wordCount_blank.
  - rewrite (proj1 (url_outcome req_body w)) in H. apply last_response in H.
    subst r.
    destruct (url_success _ _ Hok) as (u & resp & data & d & _ & _ & _ & _ & _ & ->).
    exists (text d). do 3 (split; [reflexivity|]).
    split; [apply (proj1 (split_filter_words (text d)))|].
    split; [apply (word_runs_sound (text d) [] eq_refl)|].
    split; [apply (word_runs_sound (text d) [] eq_refl)|].
    intros Hb. change (get "wordCount" _) with (VNum (Z.of_nat (wordCount (text d)))).
    now rewrite wordCount_blank.
Qed.

Lemma extraction_parsed (f : Part) (w : World) (pdfData : PdfData) :
  extraction uploadsDir pdfParse f w = Ok pdfData ->
  pdfParse (content f) = Ok pdfData.
Proof. unfold extraction. now destruct (bool_decide _). Qed.

Lemma metadata_fields_spec (d : PdfData) :
  get "pages" (metadata_fields d) = numpages d
  /\ get "info" (metadata_fields d)
     = (if truthy (info d) then info d else VObj [])
  /\ get "version" (metadata_fields d)
     = (if truthy (version d) then version d else str "Unknown").
Proof. repeat split. Qed.

(** C7 (amended). In a success response of either mode the metadata is
    built from the parser output alone and in the same way: pages is the
    reported page count as it is, info is the info dictionary or the empty
    mapping when it is absent, version is the version string when it is a
    non-empty string and the literal "Unknown" when it is absent or the
    empty string. *)
Theorem metadata_normalization (w : World) (r : Response) :
  ((exists part, responses (run (post part) w) = responses w ++ [r])
   \/ (exists req_body, responses (run (post_url req_body) w) = responses w ++ [r])) ->
  get "success" (body r) = VBool true ->
  exists dataBuffer d,
    pdfParse dataBuffer = Ok d
    /\ get "metadata" (body r) = VObj (metadata_fields d)
    /\ get "pages" (metadata_fields d) = numpages d
    /\ (forall fields, info d = VObj fields ->
         get "info" (metadata_fields d) = VObj fields)
    /\ (info d = VUndefined \/ info d = VNull ->
         get "info" (metadata_fields d) = VObj [])
    /\ (forall s, version d = VStr s -> s <> [] ->
         get "version" (metadata_fields d) = VStr s)
    /\ (version d = VUndefined \/ version d = VNull \/ version d = VStr [] ->
         get "version" (metadata_fields d) = str "Unknown").
Proof.
  intros Hr Hok.
  assert (exists dataBuffer d,
             pdfParse dataBuffer = Ok d
             /\ get "metadata" (body r) = VObj (metadata_fields d))
    as (dataBuffer & d & Hd & Hm).
  { destruct Hr as [[part H]|[req_body H]].
    - rewrite upload_responses in H. apply last_response in H. subst r.
      destruct (upload_success _ _ Hok) as (f & d & _ & _ & He & ->).
      exists (content f), d. split; [exact (extraction_parsed f w d He)|reflexivity].
    - rewrite (proj1 (url_outcome req_body w)) in H. apply last_response in H.
      subst r.
      destruct (url_success _ _ Hok)
        as (u & resp & data & d & _ & _ & _ & _ & Hd & ->).
      now exists data, d. }
  exists dataBuffer, d.
  destruct (metadata_fields_spec d) as (Hp & Hi & Hv).
  split; [exact Hd|]. split; [exact Hm|]. split; [exact Hp|].
  rewrite Hi, Hv. repeat split.
  - now intros fields ->.
  - now intros [-> | ->].
  - intros s -> Hs. now destruct s.
  - now intros [-> | [-> | ->]].
Qed.

(** C8 (amended). A success response of the upload mode carries
    fileSize, the number of bytes received, and the original file name, and
    has no url field.  A success response of the URL mode carries in url
    the string the client supplied, while the fetch went to the resolved
    URL, and has no fileSize field; its filename is the filename of the
    request body when that value is truthy, and "Unknown" when it is
    absent or falsy, the empty string included. *)
Theorem success_source_fields (w : World) (r : Response) :
  get "success" (body r) = VBool true ->
  (forall part,
      responses (run (post part) w) = responses w ++ [r] ->
      exists f,
        part = Some f
        /\ get "fileSize" (body r) = VNum (received f)
        /\ get "filename" (body r) = VStr (originalname f)
        /\ has_field "url" (body r) = false)
  /\ (forall req_body,
        responses (run (post_url req_body) w) = responses w ++ [r] ->
        get "url" (body r) = get "url" req_body
        /\ has_field "fileSize" (body r) = false
        /\ (exists processedUrl,
              convertGoogleDriveUrl (get "url" req_body) = Ok processedUrl
              /\ fetched (run (post_url req_body) w) = fetched w ++ [processedUrl])
        /\ get "filename" (body r)
           = (if truthy (get "filename" req_body)
              then get "filename" req_body else str "Unknown")).
Proof.
  intros Hok. split.
  - intros part H.
    rewrite upload_responses in H. apply last_response in H. subst r.
    destruct (upload_success _ _ Hok) as (f & d & -> & _ & _ & ->).
    now exists f.
  - intros req_body H.
    destruct (url_outcome req_body w) as [Hr Hf].
    rewrite Hr in H. apply last_response in H. subst r.
    destruct (url_success _ _ Hok)
      as (u & resp & data & d & Ht & Hu & _ & _ & _ & ->).
    repeat split.
    exists u. split; [exact Hu|]. rewrite Hf. unfold url_fetches.
    now rewrite Ht, Hu.
Qed.

(** *** Failures of the URL mode *)

Lemma missing_field_undefined (key : string) (fields : list (jsstring * Value)) :
  has_field key fields = false -> get key fields = VUndefined.
Proof. unfold has_field, get. now destruct (assoc (lit key) fields). Qed.

Lemma not_2xx (response : FetchResponse) :
  (http_status response < 200 \/ 299 < http_status response)%Z ->
  ok response = false.
Proof.
  unfold ok. intros H.
  destruct (Z.leb_spec 200 (http_status response));
    destruct (Z.leb_spec (http_status response) 299); simpl; try reflexivity; lia.
Qed.

Lemma contains_suffix (a t : jsstring) : contains (a ++ t) t.
Proof. exists a, []. now rewrite app_nil_r. Qed.

Lemma contains_refl (t : jsstring) : contains t t.
Proof. exact (contains_suffix [] t). Qed.

(** C5. In URL mode a request without a url field is answered 400 with a
    message asking for the "url" field, and nothing is fetched.  When the
    fetch of the resolved URL answers with a status outside 200..299 the
    response is 500 and its message ends with the upstream status text;
    when the fetch itself fails the response is 500 and its message is the
    text of that error. *)
Theorem url_mode_failures (req_body : list (jsstring * Value)) (w : World) :
  (has_field "url" req_body = false ->
   responses (run (post_url req_body) w) = responses w ++ [missing_url_response]
   /\ status missing_url_response = 400%Z
   /\ get "message" (body missing_url_response)
      = VStr (lit "Please provide a " ++ dq ++ lit "url" ++ dq
              ++ lit " field with the PDF URL")
   /\ fetched (run (post_url req_body) w) = fetched w)
  /\ (forall s processedUrl response,
        get "url" req_body = VStr s -> s <> [] ->
        convertGoogleDriveUrl (VStr s) = Ok processedUrl ->
        fetch processedUrl = Ok response ->
        (http_status response < 200 \/ 299 < http_status response)%Z ->
        exists r msg,
          responses (run (post_url req_body) w) = responses w ++ [r]
          /\ status r = 500%Z
          /\ get "error" (body r) = str "Failed to extract text from PDF URL"
          /\ get "message" (body r) = VStr msg
          /\ msg = lit "Failed to fetch PDF: " ++ statusText response
          /\ contains msg (statusText response)
          /\ fetched (run (post_url req_body) w) = fetched w ++ [processedUrl])
  /\ (forall s processedUrl e,
        get "url" req_body = VStr s -> s <> [] ->
        convertGoogleDriveUrl (VStr s) = Ok processedUrl ->
        fetch processedUrl = Throw e ->
        exists r msg,
          responses (run (post_url req_body) w) = responses w ++ [r]
          /\ status r = 500%Z
          /\ get "error" (body r) = str "Failed to extract text from PDF URL"
          /\ get "message" (body r) = VStr msg
          /\ msg = message e
          /\ contains msg (message e)
          /\ fetched (run (post_url req_body) w) = fetched w ++ [processedUrl]).
Proof.
  destruct (url_outcome req_body w) as [-> ->].
  unfold url_response, url_fetches. split; [|split].
  - intros H. rewrite (missing_field_undefined _ _ H).
    cbn [truthy negb]. rewrite app_nil_r. now repeat split.
  - intros s u resp -> Hs Hu Hf Hst.
    assert (Ht : truthy (VStr s) = true) by now destruct s.
    rewrite Ht, Hu, Hf, (not_2xx resp Hst). simpl negb. cbv iota.
    exists (url_failure (fetch_status_error resp)),
           (lit "Failed to fetch PDF: " ++ statusText resp).
    repeat split. apply contains_suffix.
  - intros s u e -> Hs Hu Hf.
    assert (Ht : truthy (VStr s) = true) by now destruct s.
    rewrite Ht, Hu, Hf. simpl negb. cbv iota.
    exists (url_failure e), (message e).
    repeat split. apply contains_refl.
Qed.

(** C6, the behaviour at the failing inputs.  The 400 answers of the
    extraction endpoints (no file part, wrong type, oversize, no url) are
    objects with [error] and [message] only: none has a [success] field.
    The 500 answers of the same handlers and the 400 answers of
    /generate-hmac do carry [success: false]. *)
Theorem validation_failures_omit_success (w : World) :
  (responses (run (post None) w) = responses w ++ [missing_file_response]
   /\ has_field "success" (body missing_file_response) = false)
  /\ (responses (run (post_url []) w) = responses w ++ [missing_url_response]
      /\ has_field "success" (body missing_url_response) = false)
  /\ has_field "success" (body invalid_type_response) = false
  /\ has_field "success" (body too_large_response) = false
  /\ (forall category e,
        get "success" (body (failure_response category e)) = VBool false)
  /\ get "success" (body missing_data_response) = VBool false
  /\ get "success" (body missing_secret_response) = VBool false.
Proof.
  rewrite upload_responses, (proj1 (url_outcome [] w)).
  now repeat split.
Qed.

(** *** The HMAC endpoint *)

Lemma hmac_signature (data secret : jsstring) (req_body : list (jsstring * Value))
      (w : World) :
  get "data" req_body = VStr data ->
  get "secret" req_body = VStr secret ->
  hmac_resp req_body w
  = if negb (nonempty data) then missing_data_response
    else if negb (nonempty secret) then missing_secret_response
    else mkResponse 200
           (hmac_result (VStr data)
              (Crypto.hex (Crypto.hmac_sha512 (Crypto.utf8 secret) (Crypto.utf8 data)))
              (toISOString (now w))).
Proof. unfold hmac_response. now intros -> ->. Qed.

(** C9. For strings data and secret, two calls to POST /generate-hmac
    answer with the same status and the same signature, whatever the time
    and the state they run in; when both strings are non-empty the answer
    is 200 and the signature is the hexadecimal HMAC-SHA512 of the data
    under the secret.  A call leaves everything a later call can read as
    it was and fetches nothing.  A request without a secret field is
    answered 400. *)
Theorem hmac_deterministic :
  (forall (data secret : jsstring) req_body1 req_body2 (w1 w2 : World),
      get "data" req_body1 = VStr data -> get "secret" req_body1 = VStr secret ->
      get "data" req_body2 = VStr data -> get "secret" req_body2 = VStr secret ->
      exists r1 r2,
        responses (run (post_hmac req_body1) w1) = responses w1 ++ [r1]
        /\ responses (run (post_hmac req_body2) w2) = responses w2 ++ [r2]
        /\ status r1 = status r2
        /\ get "signature" (body r1) = get "signature" (body r2)
        /\ (data <> [] -> secret <> [] ->
            status r1 = 200%Z
            /\ get "signature" (body r1)
               = VStr (Crypto.hex (Crypto.hmac_sha512 (Crypto.utf8 secret)
                                                      (Crypto.utf8 data))))
        /\ same_state w1 (run (post_hmac req_body1) w1)
        /\ fetched (run (post_hmac req_body1) w1) = fetched w1)
  /\ (forall req_body (w : World),
        has_field "secret" req_body = false ->
        exists r,
          responses (run (post_hmac req_body) w) = responses w ++ [r]
          /\ status r = 400%Z).
Proof.
  split.
  - intros data secret b1 b2 w1 w2 Hd1 Hs1 Hd2 Hs2.
    destruct (hmac_outcome b1 w1) as (Hr1 & Hst & Hf).
    destruct (hmac_outcome b2 w2) as (Hr2 & _ & _).
    pose proof (hmac_signature data secret b1 w1 Hd1 Hs1) as E1.
    pose proof (hmac_signature data secret b2 w2 Hd2 Hs2) as E2.
    exists (hmac_resp b1 w1), (hmac_resp b2 w2).
    split; [exact Hr1|]. split; [exact Hr2|].
    rewrite E1, E2. clear E1 E2 Hr1 Hr2.
    destruct data as [|c data].
    { change (nonempty []) with false. cbn [negb].
      repeat split; try easy; apply Hst. }
    change (nonempty (c :: data)) with true. cbn [negb].
    destruct secret as [|k secret].
    { change (nonempty []) with false. cbn [negb].
      repeat split; try easy; apply Hst. }
    change (nonempty (k :: secret)) with true. cbn [negb].
    repeat split; try easy; apply Hst.
  - intros b w H. destruct (hmac_outcome b w) as (Hr & _).
    exists (hmac_resp b w). split; [exact Hr|].
    unfold hmac_response. rewrite (missing_field_undefined _ _ H).
    now destruct (truthy (get "data" b)).
Qed.

(** C10. A data or secret field that is present and equal to the empty
    string is treated as missing: the answer is 400, with the
    missing-data error when data is empty (or otherwise falsy) and the
    missing-secret error when data passes and secret is empty; no
    signature is computed, so the empty string is neither signed nor used
    as the key. *)
Theorem hmac_empty_string_rejected (req_body : list (jsstring * Value)) (w : World) :
  get "data" req_body = VStr [] \/ get "secret" req_body = VStr [] ->
  exists r,
    responses (run (post_hmac req_body) w) = responses w ++ [r]
    /\ status r = 400%Z
    /\ has_field "signature" (body r) = false
    /\ (get "data" req_body = VStr [] -> r = missing_data_response)
    /\ (truthy (get "data" req_body) = true -> r = missing_secret_response)
    /\ (r = missing_data_response \/ r = missing_secret_response).
Proof.
  intros H. destruct (hmac_outcome req_body w) as (Hr & _).
  exists (hmac_resp req_body w). split; [exact Hr|].
  unfold hmac_response.
  destruct H as [H|H]; rewrite H.
  - cbn [truthy negb]. change (nonempty []) with false. cbn [negb].
    repeat split; auto. discriminate.
  - cbn [truthy]. change (nonempty []) with false.
    destruct (truthy (get "data" req_body)) eqn:Hd; cbn [negb].
    + repeat split; auto. intros E. rewrite E in Hd. discriminate.
    + repeat split; auto. discriminate.
Qed.

End Properties.

(** ** The properties at sample requests *)

Example split_ws_sample :
  split_ws (lit " a  b ") = [[]; lit "a"; lit "b"; []]
  /\ wordCount (lit " a  b ") = 2%nat
  /\ wordCount (lit "") = 0%nat
  /\ wordCount [32; 9; 10; 160; 8232] = 0%nat.
Proof. now vm_compute. Qed.

Example extname_samples :
  map extname [lit "index.html"; lit "index.coffee.md"; lit "index.";
               lit "index"; lit ".index"; lit ".index.md"; lit ".."]
  = [lit ".html"; lit ".md"; lit "."; []; []; lit ".md"; []].
Proof. now vm_compute. Qed.

Example convertGoogleDriveUrl_drive :
  convertGoogleDriveUrl (VStr drive_url) = Ok (download_prefix ++ drive_id).
Proof. now vm_compute. Qed.

Example hmac_hello :
  get "signature"
      (body (hmac_response sample_iso sample_arg_message hello_body sample_world))
  = str "7b735ac190ebd1432d56f95ae2aea5a04a23128f4c228e299b7a49fb7561de8cc8f4fdf4486dc743dfd07827d617273aab42b3bf819d243ded322fac167419f1".
Proof. now vm_compute. Qed.

Lemma convertGoogleDriveUrl_witness :
  convertGoogleDriveUrl (VStr plain_url) = Ok plain_url
  /\ exists pre id post,
       drive_link drive_url pre id post /\ id_ends post
       /\ (forall pre' id' post', drive_link drive_url pre' id' post' ->
            (length pre <= length pre')%nat)
       /\ convertGoogleDriveUrl (VStr drive_url) = Ok (download_prefix ++ id).
Proof.
  split.
  - apply (convertGoogleDriveUrl_spec plain_url).
    apply regex_match_None. vm_compute. reflexivity.
  - apply (convertGoogleDriveUrl_spec drive_url).
    exists [], drive_id, (lit "/view?usp=drive_link").
    split; [vm_compute; reflexivity|].
    split; [discriminate | vm_compute; reflexivity].
Defined.

Lemma staged_file_cleanup_witness :
  exists evs r,
    trace (run (post_extract_text sample_dir sample_parse sample_iso (Some pdf_part))
               sample_world)
    = trace sample_world ++ evs ++ [EvSend r]
    /\ In (EvWrite pdf_path) evs
    /\ In (EvUnlink pdf_path) evs
    /\ files (run (post_extract_text sample_dir sample_parse sample_iso (Some pdf_part))
                  sample_world) !! pdf_path = None.
Proof.
  destruct (staged_file_cleanup sample_dir sample_parse sample_iso
              (Some pdf_part) sample_world)
    as (evs & r & Ht & _ & Hrem & _).
  assert (Hw : In (EvWrite pdf_path) evs).
  { vm_compute in Ht.
    match type of Ht with
    | [?a; ?b; ?c; ?d] = _ =>
        change ([a; b; c] ++ [d] = evs ++ [EvSend r]) in Ht
    end.
    apply app_inj_tail in Ht as [<- _]. left. reflexivity. }
  exists evs, r. split; [exact Ht|]. split; [exact Hw|].
  apply Hrem; [exact Hw|]. vm_compute. set_solver.
Defined.

(** C1, as stated, fails where the removal fails: the upload is answered
    200 and the file staged for the request is still in the scratch
    directory afterwards. *)
Lemma staged_file_left_behind :
  let w := set_undeletable {[pdf_path]} sample_world in
  let w' := run (post_extract_text sample_dir sample_parse sample_iso (Some pdf_part)) w in
  In (EvWrite pdf_path) (trace w')
  /\ (exists r, responses w' = [r] /\ status r = 200%Z)
  /\ files w' !! pdf_path = Some pdf_bytes.
Proof.
  vm_compute. split; [left; reflexivity|].
  split; [eexists; split; reflexivity | reflexivity].
Qed.

Lemma success_text_counts_witness :
  exists t,
    get "text" (body (upload_response sample_dir sample_parse sample_iso
                                      (Some pdf_part) sample_world)) = VStr t
    /\ get "textLength" (body (upload_response sample_dir sample_parse sample_iso
                                               (Some pdf_part) sample_world))
       = VNum (Z.of_nat (length t))
    /\ get "wordCount" (body (upload_response sample_dir sample_parse sample_iso
                                              (Some pdf_part) sample_world))
       = VNum (Z.of_nat (length (List.filter nonempty (split_ws t))))
    /\ List.filter nonempty (split_ws t) = words t
    /\ Forall (fun word => word <> []
                          /\ forallb (fun c => negb (is_ws c)) word = true)
              (words t)
    /\ concat (words t) = List.filter (fun c => negb (is_ws c)) t
    /\ (forallb is_ws t = true ->
        get "wordCount" (body (upload_response sample_dir sample_parse sample_iso
                                               (Some pdf_part) sample_world))
        = VNum 0).
Proof.
  apply (success_text_counts sample_dir sample_parse sample_fetch sample_iso
           sample_world).
  - left. exists (Some pdf_part). vm_compute. reflexivity.
  - vm_compute. reflexivity.
Defined.

Lemma full_part_received : received full_part = fileSizeLimit.
Proof.
  unfold received, full_part. cbn [content].
  rewrite repeat_length. now apply Z2Nat.id.
Qed.

Lemma upload_validation_witness :
  responses (run (post_extract_text sample_dir sample_parse sample_iso None)
                 sample_world)
  = [missing_file_response]
  /\ responses (run (post_extract_text sample_dir sample_parse sample_iso
                                       (Some unnamed_part)) sample_world)
     = [missing_file_response]
  /\ responses (run (post_extract_text sample_dir sample_parse sample_iso
                                       (Some text_part)) sample_world)
     = [invalid_type_response]
  /\ responses (run (post_extract_text sample_dir sample_parse sample_iso
                                       (Some full_part)) sample_world)
     = [too_large_response]
  /\ exists w1,
       upload_single sample_dir (lit "pdf") (Some pdf_part) sample_world
       = (Ok (Next (Some (staged_file sample_dir pdf_part sample_world))), w1)
       /\ files w1 !! scratch_path sample_dir pdf_part sample_world = Some pdf_bytes.
Proof.
  split; [|split; [|split; [|split]]].
  - destruct (upload_validation sample_dir sample_parse sample_iso None
                sample_world) as (H & _).
    now destruct (H (or_introl eq_refl)) as (Hr & _).
  - destruct (upload_validation sample_dir sample_parse sample_iso
                (Some unnamed_part) sample_world) as (H & _).
    destruct H as (Hr & _); [|exact Hr].
    right. exists unnamed_part. split; reflexivity.
  - destruct (upload_validation sample_dir sample_parse sample_iso
                (Some text_part) sample_world) as (_ & H & _).
    destruct (H text_part) as (Hr & _).
    + reflexivity.
    + discriminate.
    + reflexivity.
    + vm_compute. discriminate.
    + vm_compute. discriminate.
    + exact Hr.
  - destruct (upload_validation sample_dir sample_parse sample_iso
                (Some full_part) sample_world) as (_ & _ & H & _).
    destruct (H full_part) as (Hr & _).
    + reflexivity.
    + discriminate.
    + reflexivity.
    + left. reflexivity.
    + rewrite full_part_received. lia.
    + exact Hr.
  - destruct (upload_validation sample_dir sample_parse sample_iso
                (Some pdf_part) sample_world) as (_ & _ & _ & H).
    destruct (H pdf_part) as (w1 & Hu & Hf & _).
    + reflexivity.
    + discriminate.
    + reflexivity.
    + left. reflexivity.
    + vm_compute. reflexivity.
    + exists w1. split; [exact Hu | exact Hf].
Defined.

(** C4, as stated, fails at three requests.  A PDF of exactly 10 MiB
    does not exceed 10 MiB and is of the right type, and it is answered 400
    "File too large" instead of being extracted.  A PDF sent under the
    field [file] leaves the field [pdf] without a file, and it is answered
    500 "Internal server error", not 400 "No PDF file uploaded".  A part
    under [pdf] that declares application/pdf and holds four bytes, but has
    no file name, is answered "No PDF file uploaded" instead of being
    extracted. *)
Lemma upload_validation_exceptions :
  (fieldname full_part = lit "pdf"
   /\ mimetype full_part = lit "application/pdf"
   /\ received full_part = 10485760%Z
   /\ ~ (10 * 1024 * 1024 < received full_part)%Z
   /\ responses (run (post_extract_text sample_dir sample_parse sample_iso
                                         (Some full_part)) sample_world)
      = [too_large_response]
   /\ status too_large_response = 400%Z)
  /\ (fieldname stray_part = lit "file"
      /\ responses (run (post_extract_text sample_dir sample_parse sample_iso
                                            (Some stray_part)) sample_world)
         = [internal_error_response]
      /\ status internal_error_response = 500%Z
      /\ get "error" (body internal_error_response)
         <> str "No PDF file uploaded")
  /\ (fieldname unnamed_part = lit "pdf"
      /\ mimetype unnamed_part = lit "application/pdf"
      /\ received unnamed_part = 4%Z
      /\ responses (run (post_extract_text sample_dir sample_parse sample_iso
                                            (Some unnamed_part)) sample_world)
         = [missing_file_response]
      /\ status missing_file_response = 400%Z).
Proof.
  split; [|split].
  - split; [reflexivity|]. split; [reflexivity|].
    rewrite full_part_received. split; [reflexivity|]. split; [easy|].
    split; [|reflexivity].
    rewrite upload_responses, upload_response_named;
      [|discriminate|reflexivity].
    rewrite (fileFilter_accepts full_part (or_introl eq_refl)).
    rewrite full_part_received, Z.leb_refl. reflexivity.
  - split; [reflexivity|]. split; [vm_compute; reflexivity|].
    split; [reflexivity | discriminate].
  - split; [reflexivity|]. split; [reflexivity|]. split; [reflexivity|].
    split; [vm_compute; reflexivity | reflexivity].
Qed.

Lemma url_mode_failures_witness :
  (responses (run (post_extract_text_url sample_parse sample_fetch sample_iso [])
                  sample_world)
   = [missing_url_response]
   /\ fetched (run (post_extract_text_url sample_parse sample_fetch sample_iso [])
                   sample_world) = [])
  /\ (exists r msg,
        responses (run (post_extract_text_url sample_parse sample_fetch sample_iso
                          ["url" :- VStr missing_url]) sample_world) = [r]
        /\ status r = 500%Z
        /\ get "message" (body r) = VStr msg
        /\ contains msg (lit "Not Found"))
  /\ (exists r msg,
        responses (run (post_extract_text_url sample_parse sample_fetch sample_iso
                          ["url" :- VStr dead_url]) sample_world) = [r]
        /\ status r = 500%Z
        /\ get "message" (body r) = VStr msg
        /\ contains msg (lit "fetch failed")).
Proof.
  split; [|split].
  - destruct (url_mode_failures sample_parse sample_fetch sample_iso []
                sample_world) as (H & _).
    destruct (H eq_refl) as (Hr & _ & _ & Hf). split; [exact Hr | exact Hf].
  - destruct (url_mode_failures sample_parse sample_fetch sample_iso
                ["url" :- VStr missing_url] sample_world) as (_ & H & _).
    destruct (H missing_url missing_url
                (mkFetchResponse 404 (lit "Not Found") (Ok [])))
      as (r & msg & Hr & Hs & _ & Hm & _ & Hc & _).
    + reflexivity.
    + discriminate.
    + vm_compute. reflexivity.
    + vm_compute. reflexivity.
    + right. vm_compute. reflexivity.
    + exists r, msg. repeat split; assumption.
  - destruct (url_mode_failures sample_parse sample_fetch sample_iso
                ["url" :- VStr dead_url] sample_world) as (_ & _ & H).
    destruct (H dead_url dead_url (Error (lit "fetch failed")))
      as (r & msg & Hr & Hs & _ & Hm & _ & Hc & _).
    + reflexivity.
    + discriminate.
    + vm_compute. reflexivity.
    + vm_compute. reflexivity.
    + exists r, msg. repeat split; assumption.
Defined.

Lemma metadata_normalization_witness :
  exists dataBuffer d,
    sample_parse dataBuffer = Ok d
    /\ get "metadata" (body (upload_response sample_dir sample_parse sample_iso
                                             (Some pdf_part) sample_world))
       = VObj (metadata_fields d)
    /\ get "pages" (metadata_fields d) = numpages d.
Proof.
  destruct (metadata_normalization sample_dir sample_parse sample_fetch sample_iso
              sample_world
              (upload_response sample_dir sample_parse sample_iso
                               (Some pdf_part) sample_world))
    as (dataBuffer & d & Hd & Hm & Hp & _).
  - left. exists (Some pdf_part). vm_compute. reflexivity.
  - vm_compute. reflexivity.
  - exists dataBuffer, d. repeat split; assumption.
Defined.

(** C7, as stated, fails for a parser that reports the empty string as
    version: the string is present, and the response says "Unknown". *)
Lemma empty_version_reported_unknown :
  let w' := run (post_extract_text sample_dir bare_parse sample_iso (Some pdf_part))
                sample_world in
  version bare_pdf = VStr []
  /\ exists r,
       responses w' = [r]
       /\ get "success" (body r) = VBool true
       /\ get "metadata" (body r)
          = VObj [ "pages" :- VNum 1; "info" :- VObj [];
                   "version" :- str "Unknown" ]
       /\ str "Unknown" <> version bare_pdf.
Proof.
  split; [reflexivity|]. eexists. split; [vm_compute; reflexivity|].
  split; [reflexivity|]. split; [reflexivity | discriminate].
Qed.

Lemma success_source_fields_witness :
  (exists f,
      Some pdf_part = Some f
      /\ get "fileSize" (body (upload_response sample_dir sample_parse sample_iso
                                               (Some pdf_part) sample_world))
         = VNum (received f)
      /\ has_field "url" (body (upload_response sample_dir sample_parse sample_iso
                                                (Some pdf_part) sample_world))
         = false)
  /\ get "url" (body (url_response sample_parse sample_fetch sample_iso
                        ["url" :- VStr drive_url; "filename" :- str "cv.pdf"]
                        sample_world))
     = VStr drive_url.
Proof.
  split.
  - destruct (success_source_fields sample_dir sample_parse sample_fetch sample_iso
                sample_world
                (upload_response sample_dir sample_parse sample_iso
                                 (Some pdf_part) sample_world)) as (H & _).
    + vm_compute. reflexivity.
    + destruct (H (Some pdf_part)) as (f & Hf & Hs & _ & Hu).
      * vm_compute. reflexivity.
      * exists f. repeat split; assumption.
  - destruct (success_source_fields sample_dir sample_parse sample_fetch sample_iso
                sample_world
                (url_response sample_parse sample_fetch sample_iso
                   ["url" :- VStr drive_url; "filename" :- str "cv.pdf"]
                   sample_world)) as (_ & H).
    + vm_compute. reflexivity.
    + destruct (H ["url" :- VStr drive_url; "filename" :- str "cv.pdf"])
        as (Hu & _).
      * vm_compute. reflexivity.
      * exact Hu.
Defined.

(** C8, as stated, fails for a request whose filename is the empty
    string: the response does not echo it, it says "Unknown". *)
Lemma empty_filename_not_echoed :
  let req_body := [ "url" :- VStr drive_url; "filename" :- VStr [] ] in
  let w' := run (post_extract_text_url sample_parse sample_fetch sample_iso req_body)
                sample_world in
  get "filename" req_body = VStr []
  /\ has_field "filename" req_body = true
  /\ exists r,
       responses w' = [r]
       /\ get "success" (body r) = VBool true
       /\ get "filename" (body r) = str "Unknown"
       /\ get "filename" (body r) <> get "filename" req_body.
Proof.
  split; [reflexivity|]. split; [reflexivity|].
  eexists. split; [vm_compute; reflexivity|].
  split; [reflexivity|]. split; [reflexivity | discriminate].
Qed.

Lemma hmac_deterministic_witness :
  let first := run (post_generate_hmac sample_iso sample_arg_message hello_body)
                   sample_world in
  exists r1 r2,
    responses first = responses sample_world ++ [r1]
    /\ responses (run (post_generate_hmac sample_iso sample_arg_message hello_body)
                      first) = responses first ++ [r2]
    /\ status r1 = 200%Z
    /\ get "signature" (body r1) = get "signature" (body r2).
Proof.
  intros first.
  destruct (hmac_deterministic sample_iso sample_arg_message) as (H & _).
  destruct (H (lit "Hello, World!") (lit "key") hello_body hello_body
              sample_world first)
    as (r1 & r2 & H1 & H2 & _ & Hsig & H200 & _); try reflexivity.
  exists r1, r2. split; [exact H1|]. split; [exact H2|].
  split; [|exact Hsig]. apply H200; discriminate.
Defined.

Lemma hmac_empty_string_rejected_witness :
  exists r,
    responses (run (post_generate_hmac sample_iso sample_arg_message
                      [ "data" :- str "Hello, World!"; "secret" :- VStr [] ])
                   sample_world) = responses sample_world ++ [r]
    /\ status r = 400%Z
    /\ r = missing_secret_response.
Proof.
  destruct (hmac_empty_string_rejected sample_iso sample_arg_message
              [ "data" :- str "Hello, World!"; "secret" :- VStr [] ] sample_world)
    as (r & Hr & Hs & _ & _ & Hm & _).
  - right. reflexivity.
  - exists r. split; [exact Hr|]. split; [exact Hs|]. apply Hm. reflexivity.
Defined.

(** * Further properties of the code *)

(** ** Counting words *)

Lemma word_runs_app_ws (a b cur : jsstring) (c : N) :
  is_ws c = true ->
  word_runs cur (a ++ c :: b) = word_runs cur a ++ word_runs [] b.
Proof.
  intros Hc. revert cur. induction a as [|x a IH]; intros cur; simpl.
  - rewrite Hc. now destruct cur.
  - destruct (is_ws x).
    + destruct cur; simpl; now rewrite IH.
    + apply IH.
Qed.

(** X1. The word count is additive over whitespace: for two texts joined
    by one whitespace code unit it is the sum of the two word counts. *)
Theorem wordCount_join (a b : jsstring) (c : N) :
  is_ws c = true ->
  wordCount (a ++ c :: b) = (wordCount a + wordCount b)%nat.
Proof.
  intros Hc. rewrite !wordCount_words. unfold words.
  now rewrite (word_runs_app_ws a b [] c Hc), length_app.
Qed.

Lemma wordCount_join_witness :
  wordCount (lit "to be" ++ 10 :: lit "or not") = (2 + 2)%nat.
Proof. apply (wordCount_join (lit "to be") (lit "or not") 10). reflexivity. Defined.

Lemma word_runs_none (s cur : jsstring) :
  word_runs cur s = [] -> cur = [] /\ forallb is_ws s = true.
Proof.
  revert cur. induction s as [|c s IH]; intros cur; simpl.
  - now destruct cur.
  - destruct (is_ws c); simpl.
    + destruct cur; [|discriminate]. intros H. now destruct (IH [] H).
    + intros H. now destruct (IH (c :: cur) H).
Qed.

(** X2. The word count is 0 exactly for the texts that hold nothing but
    whitespace (the empty text included). *)
Theorem wordCount_zero_iff (t : jsstring) :
  wordCount t = 0%nat <-> forallb is_ws t = true.
Proof.
  split; [|apply wordCount_blank].
  rewrite wordCount_words. unfold words. intros H.
  now destruct (word_runs_none t []); [destruct (word_runs [] t)|].
Qed.

Lemma word_runs_bound (s cur : jsstring) :
  (2 * length (word_runs cur s)
   <= length s + match cur with [] => 1 | _ => 2 end)%nat.
Proof.
  revert cur. induction s as [|c s IH]; intros cur; simpl.
  - destruct cur; simpl; lia.
  - destruct (is_ws c).
    + specialize (IH []). destruct cur; simpl in *; lia.
    + specialize (IH (c :: cur)). destruct cur; simpl in *; lia.
Qed.

(** X3. A text of n code units has at most (n + 1) / 2 words: two words
    need a whitespace code unit between them. *)
Theorem wordCount_bound (t : jsstring) :
  (2 * wordCount t <= textLength t + 1)%nat.
Proof.
  rewrite wordCount_words. unfold words, textLength.
  apply (word_runs_bound t []).
Qed.

(** ** Resolving share links *)

Lemma take_while_exact (f : N -> bool) (id post : jsstring) :
  forallb f id = true ->
  match post with [] => True | c :: _ => f c = false end ->
  take_while f (id ++ post) = id.
Proof.
  intros Hid Hpost. induction id as [|c id IH]; simpl in *.
  - destruct post as [|c post]; [reflexivity|]. simpl. now rewrite Hpost.
  - apply andb_true_iff in Hid as [-> Hid]. now rewrite IH.
Qed.

Lemma match_here_link (id post : jsstring) :
  is_id id -> id_ends post ->
  match_here (drive_prefix ++ id ++ post) = Some id.
Proof.
  intros [Hne Hall] Hend. unfold match_here.
  rewrite (proj2 (strip_prefix_Some drive_prefix _ (id ++ post)) eq_refl).
  rewrite (take_while_exact is_id_char id post Hall Hend).
  now destruct id.
Qed.

(** X4. A URL that starts with the Google Drive viewer/share pattern is
    resolved to the direct-download URL of its identifier, whatever
    follows the identifier: the trailing path (/view, /preview) and the
    query string are dropped, so all share links of one document resolve
    to one URL. *)
Theorem convertGoogleDriveUrl_share_link (id post : jsstring) :
  is_id id -> id_ends post ->
  convertGoogleDriveUrl (VStr (drive_prefix ++ id ++ post))
  = Ok (download_prefix ++ id).
Proof.
  intros Hid Hend. unfold convertGoogleDriveUrl.
  now rewrite regex_match_eq, (match_here_link id post Hid Hend).
Qed.

Lemma convertGoogleDriveUrl_share_link_witness :
  convertGoogleDriveUrl
    (VStr (drive_prefix ++ drive_id ++ lit "/preview"))
  = Ok (download_prefix ++ drive_id).
Proof.
  apply (convertGoogleDriveUrl_share_link drive_id (lit "/preview")).
  - split; [discriminate | vm_compute; reflexivity].
  - vm_compute. reflexivity.
Defined.

Lemma clash_strip (p t s : jsstring) :
  clash p t = true -> strip_prefix p (t ++ s) = None.
Proof.
  revert t. induction p as [|a p IH]; intros t; simpl; [discriminate|].
  destruct t as [|b t]; [discriminate|]. simpl.
  destruct (a =? b); [apply IH | reflexivity].
Qed.

Lemma regex_match_skip (t s : jsstring) :
  clash_all t = true -> regex_match (t ++ s) = regex_match s.
Proof.
  induction t as [|c t IH]; [reflexivity|].
  cbn [clash_all]. intros H. apply andb_true_iff in H as [Hc Hall].
  rewrite regex_match_eq. unfold match_here.
  rewrite (clash_strip drive_prefix (c :: t) s Hc).
  rewrite <- app_comm_cons. now apply IH.
Qed.

Lemma regex_match_id_chars (id : jsstring) :
  forallb is_id_char id = true -> regex_match id = None.
Proof.
  induction id as [|c id IH]; intros Hall; rewrite regex_match_eq.
  - reflexivity.
  - unfold match_here.
    destruct (strip_prefix drive_prefix (c :: id)) as [rest|] eqn:Hp.
    + apply strip_prefix_Some in Hp. rewrite Hp, forallb_app in Hall.
      apply andb_true_iff in Hall as [Hall _]. vm_compute in Hall. discriminate.
    + simpl in Hall. apply andb_true_iff in Hall as [_ Hall]. now apply IH.
Qed.

Lemma regex_match_download (id : jsstring) :
  forallb is_id_char id = true -> regex_match (download_prefix ++ id) = None.
Proof.
  intros Hall. rewrite regex_match_skip by (vm_compute; reflexivity).
  now apply regex_match_id_chars.
Qed.

(** X5. Resolving is idempotent: the URL the resolver returns is returned
    unchanged when it is resolved again, since a direct-download URL does
    not hold the viewer/share pattern. *)
Theorem convertGoogleDriveUrl_idempotent (s r : jsstring) :
  convertGoogleDriveUrl (VStr s) = Ok r ->
  convertGoogleDriveUrl (VStr r) = Ok r.
Proof.
  unfold convertGoogleDriveUrl.
  destruct (regex_match s) as [id|] eqn:Hm.
  - intros H. replace r with (download_prefix ++ id) by congruence.
    destruct (regex_match_Some _ _ Hm) as (pre & post & [_ [_ Hall]] & _).
    now rewrite (regex_match_download id Hall).
  - intros [= <-]. now rewrite Hm.
Qed.

Lemma convertGoogleDriveUrl_idempotent_witness :
  convertGoogleDriveUrl (VStr (download_prefix ++ drive_id))
  = Ok (download_prefix ++ drive_id).
Proof.
  apply (convertGoogleDriveUrl_idempotent drive_url).
  vm_compute. reflexivity.
Defined.

(** ** cleanupFile *)

(** X6. cleanupFile never raises, whether the path is absent, removable
    or not removable; it sends nothing, leaves every other path as it is,
    does nothing at all when the path is absent, leaves the path absent
    when the removal works and the file system unchanged when it fails. *)
Theorem cleanupFile_contained (p : jsstring) (w : World) :
  exists w',
    cleanupFile p w = (Ok tt, w')
    /\ responses w' = responses w
    /\ (forall q, q <> p -> files w' !! q = files w !! q)
    /\ (files w !! p = None -> w' = w)
    /\ (p ∉ undeletable w -> files w' !! p = None)
    /\ (p ∈ undeletable w -> files w' = files w).
Proof.
  exists (cleanup p w). split; [apply cleanupFile_eq|].
  split; [apply responses_cleanup|].
  unfold cleanup. destruct (files w !! p) as [data|] eqn:Hp.
  - destruct (bool_decide (p ∈ undeletable w)) eqn:Hu.
    + apply bool_decide_eq_true_1 in Hu. repeat split; try easy.
    + apply bool_decide_eq_false_1 in Hu. unfold unlinked. repeat split.
      * intros q Hq. cbn [files emit set_files]. now apply lookup_delete_ne.
      * discriminate.
      * intros _. apply lookup_delete_eq.
      * easy.
  - repeat split; easy.
Qed.

(** X7. cleanupFile is idempotent where the removal works: in the world
    a first call leaves, a second call on the same path changes nothing
    and logs nothing. *)
Theorem cleanupFile_twice (p : jsstring) (w : World) :
  p ∉ undeletable w ->
  exists w',
    cleanupFile p w = (Ok tt, w') /\ cleanupFile p w' = (Ok tt, w').
Proof.
  intros Hu. exists (cleanup p w). split; [apply cleanupFile_eq|].
  rewrite cleanupFile_eq. f_equal.
  unfold cleanup at 1.
  replace (files (cleanup p w) !! p) with (@None (list Byte.byte)); [reflexivity|].
  unfold cleanup. destruct (files w !! p) eqn:Hp; [|now rewrite Hp].
  rewrite bool_decide_eq_false_2 by exact Hu.
  symmetry. apply lookup_delete_eq.
Qed.

Lemma cleanupFile_twice_witness :
  exists w',
    cleanupFile pdf_path (stage pdf_path pdf_bytes sample_world) = (Ok tt, w')
    /\ cleanupFile pdf_path w' = (Ok tt, w').
Proof.
  apply (cleanupFile_twice pdf_path (stage pdf_path pdf_bytes sample_world)).
  vm_compute. set_solver.
Defined.

(** ** The routes, further *)

Section MoreProperties.

Variable uploadsDir : jsstring.
Variable pdfParse : list Byte.byte -> Result PdfData.
Variable fetch : jsstring -> Result FetchResponse.
Variable toISOString : Z -> jsstring.
Variable invalid_arg_message : string -> Value -> jsstring.

Local Abbreviation post := (post_extract_text uploadsDir pdfParse toISOString).
Local Abbreviation post_url := (post_extract_text_url pdfParse fetch toISOString).
Local Abbreviation post_hmac := (post_generate_hmac toISOString invalid_arg_message).
Local Abbreviation upload_resp := (upload_response uploadsDir pdfParse toISOString).
Local Abbreviation url_resp := (url_response pdfParse fetch toISOString).
Local Abbreviation hmac_resp := (hmac_response toISOString invalid_arg_message).
Local Abbreviation path_of := (scratch_path uploadsDir).

Lemma files_cleanup_other (p q : jsstring) (w : World) :
  q <> p -> files (cleanup p w) !! q = files w !! q.
Proof.
  intros Hq. unfold cleanup. destruct (files w !! p); [|reflexivity].
  destruct (bool_decide _); [reflexivity|]. now apply lookup_delete_ne.
Qed.

Lemma files_aborted_other (p q : jsstring) (w : World) :
  q <> p -> files (aborted p w) !! q = files w !! q.
Proof.
  intros Hq. unfold aborted. destruct (files w !! p); [|reflexivity].
  destruct (bool_decide _); [reflexivity|]. now apply lookup_delete_ne.
Qed.

Lemma files_stage_other (p q : jsstring) data (w : World) :
  q <> p -> files (stage p data w) !! q = files w !! q.
Proof. intros Hq. now apply lookup_insert_ne. Qed.

Lemma files_unstaged (p : jsstring) data (w : World) :
  p ∉ undeletable w -> files w !! p = None ->
  files (cleanup p (stage p data w)) = files w
  /\ files (aborted p (stage p data w)) = files w.
Proof.
  intros Hu Hp.
  rewrite (cleanup_staged p data), (aborted_staged p data)
    by apply lookup_insert_eq.
  cbn [undeletable stage emit set_files].
  rewrite bool_decide_eq_false_2 by exact Hu.
  unfold unlinked, stage. cbn [files emit set_files].
  now rewrite delete_insert_eq, delete_id.
Qed.

(** X8. A request to POST /extract-text touches no path of the file
    system but the one its file is staged under; when that name is free
    and its removal works, the file system after the request is the file
    system before it. *)
Theorem upload_file_system (part : option Part) (w : World) :
  (forall q, (forall f, part = Some f -> q <> path_of f w) ->
             files (run (post part) w) !! q = files w !! q)
  /\ (forall f, part = Some f ->
                path_of f w ∉ undeletable w ->
                files w !! path_of f w = None ->
                files (run (post part) w) = files w).
Proof using Type.
  clear fetch invalid_arg_message.
  rewrite run_post. unfold upload_world.
  destruct part as [f|]; [|now split].
  destruct (negb (nonempty (originalname f)));
    [split; [reflexivity | now intros]|].
  destruct (negb (bool_decide (fieldname f = lit "pdf")));
    [split; [reflexivity | now intros]|].
  destruct (fileFilter f) as [[|]|e]; try (split; [reflexivity | now intros]).
  split.
  - intros q Hq. specialize (Hq f eq_refl).
    destruct (fileSizeLimit <=? received f)%Z.
    + cbn [files emit]. now rewrite files_aborted_other, files_stage_other.
    + destruct (extraction uploadsDir pdfParse f w); cbn [files emit];
        rewrite files_cleanup_other by exact Hq; cbn [files emit];
        now rewrite files_stage_other.
  - intros f' [= <-] Hu Hp.
    destruct (fileSizeLimit <=? received f)%Z.
    + cbn [files emit]. now apply files_unstaged.
    + assert (Hc : forall e w0, files (cleanup (path_of f w) (emit e w0))
                                = files (cleanup (path_of f w) w0)).
      { intros e0 w0. unfold cleanup. cbn [files undeletable emit].
        destruct (files w0 !! path_of f w); [|reflexivity].
        now destruct (bool_decide _). }
      destruct (extraction uploadsDir pdfParse f w); cbn [files emit];
        rewrite !Hc; now apply files_unstaged.
Qed.

(** X9. An upload that fails validation before storage (no file part,
    a part without a file name, or a named part under [pdf] of a wrong
    type) is answered 400 without anything being staged: the answer is the
    only event of the request and the file system is untouched. *)
Theorem rejected_upload_stages_nothing (part : option Part) (w : World) :
  part = None
  \/ (exists f, part = Some f /\ originalname f = [])
  \/ (exists f, part = Some f
                /\ originalname f <> []
                /\ fieldname f = lit "pdf"
                /\ mimetype f <> lit "application/pdf"
                /\ toLowerCase (extname (originalname f)) <> lit ".pdf") ->
  exists r,
    trace (run (post part) w) = trace w ++ [EvSend r]
    /\ status r = 400%Z
    /\ same_state w (run (post part) w).
Proof.
  intros H. rewrite run_post. unfold upload_world.
  destruct H as [-> | [(f & -> & Hname) | (f & -> & Hname & Hfield & H1 & H2)]].
  - exists missing_file_response. now repeat split.
  - rewrite Hname. exists missing_file_response. now repeat split.
  - rewrite (nonempty_true _ Hname), (bool_decide_eq_true_2 _ Hfield).
    cbn [negb]. rewrite (fileFilter_rejects f H1 H2).
    exists invalid_type_response. now repeat split.
Qed.

(** *** Answers *)

Lemma url_returns (req_body : list (jsstring * Value)) (w : World) :
  fst (post_url req_body w) = Ok tt
  /\ same_state w (run (post_url req_body) w).
Proof.
  unfold run, post_extract_text_url, same_state.
  exec_route.
Qed.

Lemma hmac_returns (req_body : list (jsstring * Value)) (w : World) :
  fst (post_hmac req_body w) = Ok tt.
Proof.
  unfold post_generate_hmac.
  exec_route.
Qed.

(** X10. Each of the three POST routes answers every request exactly
    once and lets no exception escape its handler, whatever the parser,
    the fetch or the file system do: the try/catch of every handler covers
    all its failures. *)
Theorem handlers_always_answer (w : World) :
  (forall part,
      fst (post part w) = Ok tt
      /\ exists r, responses (run (post part) w) = responses w ++ [r])
  /\ (forall req_body,
        fst (post_url req_body w) = Ok tt
        /\ exists r, responses (run (post_url req_body) w) = responses w ++ [r])
  /\ (forall req_body,
        fst (post_hmac req_body w) = Ok tt
        /\ exists r, responses (run (post_hmac req_body) w) = responses w ++ [r]).
Proof.
  split; [|split].
  - intros part. rewrite post_extract_text_eq. split; [reflexivity|].
    exists (upload_resp part w). apply upload_responses.
  - intros b. split; [apply url_returns|].
    exists (url_resp b w). apply url_outcome.
  - intros b. split; [apply hmac_returns|].
    exists (hmac_resp b w). apply hmac_outcome.
Qed.

Ltac shape_leaf :=
  split;
  [ first [left; reflexivity | right; left; reflexivity | right; right; reflexivity]
  | split;
    [ split; (let H := fresh in intros H; first [reflexivity | discriminate H])
    | let H := fresh in
      intros H; first [now destruct H | do 2 eexists; split; reflexivity] ] ].

(** X11. The answers of the three POST routes have one shape: the status
    is 200, 400 or 500; the field success is true exactly in the 200
    answers; every other answer holds a string error and a string
    message. *)
Theorem post_response_shape (w : World) (r : Response) :
  (exists part, responses (run (post part) w) = responses w ++ [r])
  \/ (exists req_body, responses (run (post_url req_body) w) = responses w ++ [r])
  \/ (exists req_body, responses (run (post_hmac req_body) w) = responses w ++ [r]) ->
  (status r = 200%Z \/ status r = 400%Z \/ status r = 500%Z)
  /\ (status r = 200%Z <-> get "success" (body r) = VBool true)
  /\ (status r <> 200%Z ->
      exists e m, get "error" (body r) = VStr e /\ get "message" (body r) = VStr m).
Proof.
  intros [[part H]|[[b H]|[b H]]].
  - rewrite upload_responses in H. apply last_response in H. subst r.
    unfold upload_response.
    destruct part as [f|]; [|shape_leaf].
    destruct (negb (nonempty (originalname f))); [shape_leaf|].
    destruct (negb (bool_decide (fieldname f = lit "pdf"))); [shape_leaf|].
    destruct (fileFilter f) as [[|]|e]; try shape_leaf.
    destruct (fileSizeLimit <=? received f)%Z; [shape_leaf|].
    destruct (extraction uploadsDir pdfParse f w); shape_leaf.
  - rewrite (proj1 (url_outcome pdfParse fetch toISOString b w)) in H.
    apply last_response in H. subst r. unfold url_response.
    destruct (truthy (get "url" b)); cbn [negb]; [|shape_leaf].
    destruct (convertGoogleDriveUrl _) as [u|e]; [|shape_leaf].
    destruct (fetch u) as [resp|e]; [|shape_leaf].
    destruct (ok resp); cbn [negb]; [|shape_leaf].
    destruct (arrayBuffer resp) as [data|e]; [|shape_leaf].
    destruct (pdfParse data); shape_leaf.
  - rewrite (proj1 (hmac_outcome toISOString invalid_arg_message b w)) in H.
    apply last_response in H. subst r. unfold hmac_response.
    destruct (truthy (get "data" b)); cbn [negb]; [|shape_leaf].
    destruct (truthy (get "secret" b)); cbn [negb]; [|shape_leaf].
    destruct (createHmac _ _) as [h|e]; [|shape_leaf].
    destruct (hmac_update _ _ _) as [h'|e]; shape_leaf.
Qed.

(** *** The URL mode *)

(** X12. A request to POST /extract-text-url never touches the file
    system or anything else a handler reads, and it fetches at most one
    URL. *)
Theorem url_mode_keeps_state (req_body : list (jsstring * Value)) (w : World) :
  same_state w (run (post_url req_body) w)
  /\ exists urls,
       fetched (run (post_url req_body) w) = fetched w ++ urls
       /\ (length urls <= 1)%nat.
Proof.
  split; [apply url_returns|].
  exists (url_fetches req_body). split; [apply url_outcome|].
  unfold url_fetches. destruct (negb _); [simpl; lia|].
  destruct (convertGoogleDriveUrl _); simpl; lia.
Qed.

(** X13. A url field that is truthy but not a string (a number, true, an
    array, an object) is not rejected as missing input: the resolver
    raises on it, and the request is answered 500 with the text of that
    TypeError, without any fetch. *)
Theorem url_not_a_string (req_body : list (jsstring * Value)) (w : World) :
  truthy (get "url" req_body) = true ->
  (forall s, get "url" req_body <> VStr s) ->
  responses (run (post_url req_body) w)
  = responses w ++ [url_failure (Error (lit "url.match is not a function"))]
  /\ status (url_failure (Error (lit "url.match is not a function"))) = 500%Z
  /\ fetched (run (post_url req_body) w) = fetched w.
Proof.
  intros Ht Hs. destruct (url_outcome pdfParse fetch toISOString req_body w) as [-> ->].
  unfold url_response, url_fetches. rewrite Ht. cbn [negb].
  destruct (get "url" req_body) as [| | | | s | |]; cbn [convertGoogleDriveUrl];
    try (now rewrite app_nil_r).
  now destruct (Hs s).
Qed.

(** *** The error middleware *)

(** X14. The error middleware answers every error with one of three
    fixed objects and changes nothing else.  A multer error with the code
    LIMIT_FILE_SIZE gets the 400 size answer whatever its message; any
    error that is neither that one nor the rejection of the file filter,
    multer errors with other codes included, is logged and answered 500
    with a generic message, so its own text does not reach the client. *)
Theorem error_middleware_answers (e : JsError) (w : World) :
  exists r,
    responses (run (error_middleware e) w) = responses w ++ [r]
    /\ same_state w (run (error_middleware e) w)
    /\ (r = too_large_response \/ r = invalid_type_response
        \/ r = internal_error_response)
    /\ (multer_code e = Some (lit "LIMIT_FILE_SIZE") -> r = too_large_response)
    /\ (multer_code e <> Some (lit "LIMIT_FILE_SIZE") ->
        message e <> lit "Only PDF files are allowed!" ->
        r = internal_error_response
        /\ trace (run (error_middleware e) w)
           = trace w ++ [EvError (lit "Unhandled error:") e; EvSend r]).
Proof.
  unfold run, error_middleware, same_state.
  destruct (bool_decide (multer_code e = Some (lit "LIMIT_FILE_SIZE"))) eqn:H1.
  - apply bool_decide_eq_true_1 in H1. exists too_large_response.
    split; [apply responses_emit|].
    repeat split; auto; intros; contradiction.
  - apply bool_decide_eq_false_1 in H1.
    destruct (bool_decide (message e = lit "Only PDF files are allowed!")) eqn:H2.
    + apply bool_decide_eq_true_1 in H2. exists invalid_type_response.
      split; [apply responses_emit|].
      repeat split; auto; intros; contradiction.
    + apply bool_decide_eq_false_1 in H2. exists internal_error_response.
      split.
      { unfold bind, console_error, res_status_json, responses, emit.
        cbn [fst snd trace]. rewrite !sends_app. simpl. now rewrite app_nil_r. }
      repeat split; auto; intros; try contradiction.
      unfold bind, console_error, res_status_json, emit. cbn [snd trace].
      now rewrite <- app_assoc.
Qed.

(** *** The HMAC endpoint, further *)

(** X15. When data and secret are both truthy but one of them is not a
    string (a number, true, an array, an object), POST /generate-hmac does
    not answer 400: the crypto call raises and the request is answered 500
    with success false and without a signature. *)
Theorem hmac_not_a_string (req_body : list (jsstring * Value)) (w : World) :
  truthy (get "data" req_body) = true ->
  truthy (get "secret" req_body) = true ->
  (forall s, get "secret" req_body <> VStr s)
  \/ (forall s, get "data" req_body <> VStr s) ->
  exists r,
    responses (run (post_hmac req_body) w) = responses w ++ [r]
    /\ status r = 500%Z
    /\ get "error" (body r) = str "Failed to generate HMAC signature"
    /\ get "success" (body r) = VBool false
    /\ has_field "signature" (body r) = false.
Proof.
  intros Hd Hs H.
  exists (hmac_resp req_body w). split; [apply hmac_outcome|].
  unfold hmac_response. rewrite Hd, Hs. cbn [negb].
  destruct (get "secret" req_body) as [| | | | k | |] eqn:Ek;
    cbn [createHmac]; try now repeat split.
  destruct (get "data" req_body) as [| | | | d | |] eqn:Ed;
    cbn [hmac_update]; try now repeat split.
  destruct H as [H|H]; [now destruct (H k) | now destruct (H d)].
Qed.

(** *** The signature *)

Lemma length_be_bytes (n : nat) (x : Z) : length (Crypto.be_bytes n x) = n.
Proof.
  revert x. induction n as [|n IH]; intros x; simpl; [reflexivity|].
  rewrite length_app, IH. simpl. lia.
Qed.

Lemma be_bytes_range (n : nat) (x : Z) :
  Forall (fun b => 0 <= b < 256)%Z (Crypto.be_bytes n x).
Proof.
  revert x. induction n as [|n IH]; intros x; simpl; [constructor|].
  apply Forall_app. split; [apply IH|].
  repeat constructor; apply Z.mod_pos_bound; lia.
Qed.

Lemma length_zip_with (f : Z -> Z -> Z) (xs ys : list Z) :
  length (Crypto.zip_with f xs ys) = Nat.min (length xs) (length ys).
Proof.
  revert ys. induction xs as [|x xs IH]; intros [|y ys]; simpl; auto.
Qed.

Lemma length_compress (h block : list Z) :
  length h = 8%nat -> length (Crypto.compress h block) = 8%nat.
Proof.
  intros H. unfold Crypto.compress. rewrite length_zip_with, H. reflexivity.
Qed.

Lemma length_fold_compress (blocks : list (list Z)) (h : list Z) :
  length h = 8%nat -> length (fold_left Crypto.compress blocks h) = 8%nat.
Proof.
  revert h. induction blocks as [|b blocks IH]; intros h H; simpl; [exact H|].
  apply IH. now apply length_compress.
Qed.

Lemma sha512_bytes (msg : list Z) :
  length (Crypto.sha512 msg) = 64%nat
  /\ Forall (fun b => 0 <= b < 256)%Z (Crypto.sha512 msg).
Proof.
  unfold Crypto.sha512.
  pose proof (length_fold_compress
                (Crypto.split_every 128 (Crypto.pad msg)) Crypto.H512 eq_refl) as H.
  revert H. generalize (fold_left Crypto.compress
                          (Crypto.split_every 128 (Crypto.pad msg)) Crypto.H512).
  intros l Hl. split.
  - assert (Hf : forall l0 : list Z,
               length (flat_map (Crypto.be_bytes 8) l0) = (8 * length l0)%nat).
    { induction l0 as [|x l0 IH]; [reflexivity|].
      cbn [flat_map]. rewrite length_app, length_be_bytes, IH. simpl. lia. }
    rewrite Hf, Hl. reflexivity.
  - clear Hl. induction l as [|x l IH]; [constructor|].
    cbn [flat_map]. apply Forall_app. split; [apply be_bytes_range | exact IH].
Qed.

Lemma hex_bytes (bs : list Z) :
  Forall (fun b => 0 <= b < 256)%Z bs ->
  length (Crypto.hex bs) = (2 * length bs)%nat
  /\ Forall (fun c => is_hex_digit c = true) (Crypto.hex bs).
Proof.
  induction 1 as [|b bs Hb Hbs [IHl IHd]]; [now split|].
  unfold Crypto.hex in *. cbn [flat_map app length]. split; [lia|].
  assert (Hd : forall d, (0 <= d < 16)%Z -> is_hex_digit (Crypto.hex_digit d) = true).
  { intros d Hd. unfold Crypto.hex_digit, is_hex_digit, in_range.
    destruct (Z.ltb_spec d 10).
    - apply orb_true_iff. left. apply andb_true_iff. split; apply N.leb_le; lia.
    - apply orb_true_iff. right. apply andb_true_iff. split; apply N.leb_le; lia. }
  constructor; [|constructor; [|exact IHd]]; apply Hd.
  - split; [apply Z.div_pos; lia | apply Z.div_lt_upper_bound; lia].
  - apply Z.mod_pos_bound. lia.
Qed.

(** X19. In every 200 answer of POST /generate-hmac the signature is a
    string of exactly 128 lower-case hexadecimal digits, whatever the
    lengths of the data and of the secret, and it comes with the algorithm
    name HMAC-SHA512 and the data as they were sent. *)
Theorem hmac_signature_format (req_body : list (jsstring * Value)) (w : World)
        (r : Response) :
  responses (run (post_hmac req_body) w) = responses w ++ [r] ->
  status r = 200%Z ->
  exists signature,
    get "signature" (body r) = VStr signature
    /\ length signature = 128%nat
    /\ Forall (fun c => is_hex_digit c = true) signature
    /\ get "algorithm" (body r) = str "HMAC-SHA512"
    /\ get "data" (body r) = get "data" req_body.
Proof.
  intros H Hs.
  rewrite (proj1 (hmac_outcome toISOString invalid_arg_message req_body w)) in H.
  apply last_response in H. subst r. revert Hs. unfold hmac_response.
  destruct (truthy (get "data" req_body)); cbn [negb]; [|discriminate].
  destruct (truthy (get "secret" req_body)); cbn [negb]; [|discriminate].
  destruct (createHmac _ _) as [h|e]; [|discriminate].
  destruct (hmac_update _ _ _) as [h'|e]; [|discriminate].
  intros _. exists (hmac_digest_hex h').
  split; [reflexivity|]. unfold hmac_digest_hex, Crypto.hmac_sha512. cbv zeta.
  match goal with
  | |- context [Crypto.hex (Crypto.sha512 ?m)] =>
      destruct (sha512_bytes m) as [Hl Hr]
  end.
  destruct (hex_bytes _ Hr) as [Hhl Hhd].
  split; [now rewrite Hhl, Hl|]. split; [exact Hhd|]. now split.
Qed.

(** *** A file under another field *)

(** X23. A named file sent under a field other than [pdf] reaches
    neither the file filter nor the scratch directory, whatever its type
    and its length: multer refuses it as an unexpected field, and the error
    middleware, which knows only the size error and the filter's error,
    logs it and answers 500 with its generic message. *)
Theorem unexpected_field_refused (f : Part) (w : World) :
  originalname f <> [] ->
  fieldname f <> [] ->
  fieldname f <> lit "pdf" ->
  trace (run (post (Some f)) w)
  = trace w ++ [EvError (lit "Unhandled error:") unexpected_field;
                EvSend internal_error_response]
  /\ multer_code unexpected_field = Some (lit "LIMIT_UNEXPECTED_FILE")
  /\ status internal_error_response = 500%Z
  /\ same_state w (run (post (Some f)) w).
Proof using Type.
  clear fetch invalid_arg_message.
  intros Hname _ Hfield.
  destruct (upload_unexpected_field uploadsDir pdfParse toISOString f w Hname Hfield)
    as [_ ->].
  cbn [trace emit]. rewrite <- app_assoc. now repeat split.
Qed.

(** *** Uploads in sequence *)

Lemma upload_files_restored (f : Part) (w : World) :
  path_of f w ∉ undeletable w ->
  files w !! path_of f w = None ->
  files (run (post (Some f)) w) = files w.
Proof using Type.
  clear fetch invalid_arg_message.
  intros Hu Hp. rewrite run_post. unfold upload_world.
  destruct (negb (nonempty (originalname f))); [reflexivity|].
  destruct (negb (bool_decide (fieldname f = lit "pdf"))); [reflexivity|].
  destruct (fileFilter f) as [[|]|e]; try reflexivity.
  destruct (fileSizeLimit <=? received f)%Z.
  - cbn [files emit]. now apply files_unstaged.
  - assert (Hc : forall e w0, files (cleanup (path_of f w) (emit e w0))
                              = files (cleanup (path_of f w) w0)).
    { intros e0 w0. unfold cleanup. cbn [files undeletable emit].
      destruct (files w0 !! path_of f w); [|reflexivity].
      now destruct (bool_decide _). }
    destruct (extraction uploadsDir pdfParse f w); cbn [files emit];
      rewrite !Hc; now apply files_unstaged.
Qed.

Lemma upload_keeps_undeletable (part : option Part) (w : World) :
  undeletable (run (post part) w) = undeletable w.
Proof using Type.
  clear fetch invalid_arg_message.
  rewrite run_post. unfold upload_world, cleanup, aborted, unlinked, stage.
  destruct part as [f|]; [|reflexivity].
  destruct (negb (nonempty (originalname f))); [reflexivity|].
  destruct (negb (bool_decide (fieldname f = lit "pdf"))); [reflexivity|].
  destruct (fileFilter f) as [[|]|e]; try reflexivity.
  destruct (fileSizeLimit <=? received f)%Z; cbn [files undeletable emit set_files].
  - rewrite lookup_insert_eq. now destruct (bool_decide _).
  - destruct (extraction uploadsDir pdfParse f w);
      cbn [files undeletable emit set_files]; rewrite lookup_insert_eq;
      now destruct (bool_decide _).
Qed.

(** X22. The scratch directory does not fill up: after any number of
    uploads served one after the other, each at its own time and with its
    own random number, the file system is the one before the first of
    them, provided no removal fails and no staged name was taken
    beforehand. *)
Theorem uploads_leave_no_files (requests : list (Z * Z * option Part)) (w : World) :
  undeletable w = ∅ ->
  (forall t r f, In (t, r, Some f) requests ->
                 files w !! path_of f (set_clock t r w) = None) ->
  files (serve_uploads uploadsDir pdfParse toISOString requests w) = files w
  /\ length (responses (serve_uploads uploadsDir pdfParse toISOString requests w))
     = (length (responses w) + length requests)%nat.
Proof using Type.
  clear fetch invalid_arg_message.
  intros Hu Hfresh. unfold serve_uploads.
  cut (forall w0,
          files w0 = files w -> undeletable w0 = ∅ ->
          files (fold_left
                   (fun w1 request =>
                      let '(t, r, part) := request in
                      run (post part) (set_clock t r w1)) requests w0)
          = files w
          /\ length (responses
                       (fold_left
                          (fun w1 request =>
                             let '(t, r, part) := request in
                             run (post part) (set_clock t r w1)) requests w0))
             = (length (responses w0) + length requests)%nat).
  { intros Hgen. now apply Hgen. }
  induction requests as [|[[t r] part] requests IH]; intros w0 Hf Hu0.
  - simpl. split; [exact Hf | lia].
  - cbn [fold_left].
    destruct (IH (fun t0 r0 f0 Hin => Hfresh t0 r0 f0 (or_intror Hin))
                 (run (post part) (set_clock t r w0))) as [IHf IHr].
    + destruct part as [f|].
      * rewrite upload_files_restored; [exact Hf| |].
        -- cbn [undeletable set_clock]. rewrite Hu0. set_solver.
        -- change (files (set_clock t r w0)) with (files w0). rewrite Hf.
           apply (Hfresh t r f). now left.
      * now rewrite run_post.
    + now rewrite upload_keeps_undeletable.
    + split; [exact IHf|]. rewrite IHr, upload_responses, length_app.
      simpl. change (responses (set_clock t r w0)) with (responses w0). lia.
Qed.

End MoreProperties.

(** ** The further properties at sample requests *)

Lemma upload_file_system_witness :
  files (run (post_extract_text sample_dir sample_parse sample_iso (Some pdf_part))
             sample_world)
  = files sample_world.
Proof.
  apply (upload_file_system sample_dir sample_parse sample_iso
           (Some pdf_part) sample_world) with (f := pdf_part).
  - reflexivity.
  - vm_compute. set_solver.
  - reflexivity.
Defined.

Lemma unexpected_field_refused_witness :
  responses (run (post_extract_text sample_dir sample_parse sample_iso
                                    (Some stray_part)) sample_world)
  = [internal_error_response].
Proof.
  destruct (unexpected_field_refused sample_dir sample_parse sample_iso
              stray_part sample_world) as (Ht & _).
  - discriminate.
  - discriminate.
  - vm_compute. discriminate.
  - unfold responses. now rewrite Ht.
Defined.

Lemma rejected_upload_stages_nothing_witness :
  exists r,
    trace (run (post_extract_text sample_dir sample_parse sample_iso (Some text_part))
               sample_world)
    = trace sample_world ++ [EvSend r]
    /\ status r = 400%Z
    /\ same_state sample_world
         (run (post_extract_text sample_dir sample_parse sample_iso (Some text_part))
              sample_world).
Proof.
  apply (rejected_upload_stages_nothing sample_dir sample_parse sample_iso
           (Some text_part) sample_world).
  right. right. exists text_part. split; [reflexivity|].
  split; [discriminate|]. split; [reflexivity|].
  split; vm_compute; discriminate.
Defined.

Lemma post_response_shape_witness :
  status (upload_response sample_dir sample_parse sample_iso (Some text_part)
                          sample_world) = 400%Z
  /\ get "success" (body (upload_response sample_dir sample_parse sample_iso
                                          (Some text_part) sample_world))
     <> VBool true.
Proof.
  destruct (post_response_shape sample_dir sample_parse sample_fetch sample_iso
              sample_arg_message sample_world
              (upload_response sample_dir sample_parse sample_iso (Some text_part)
                               sample_world))
    as (_ & Hiff & _).
  - left. exists (Some text_part). vm_compute. reflexivity.
  - split; [reflexivity|]. intros H. apply Hiff in H. discriminate.
Defined.

Lemma url_not_a_string_witness :
  responses (run (post_extract_text_url sample_parse sample_fetch sample_iso
                    ["url" :- VNum 5]) sample_world)
  = responses sample_world
    ++ [url_failure (Error (lit "url.match is not a function"))]
  /\ fetched (run (post_extract_text_url sample_parse sample_fetch sample_iso
                      ["url" :- VNum 5]) sample_world)
     = fetched sample_world.
Proof.
  destruct (url_not_a_string sample_parse sample_fetch sample_iso
              ["url" :- VNum 5] sample_world) as (Hr & _ & Hf).
  - reflexivity.
  - intros s. discriminate.
  - split; [exact Hr | exact Hf].
Defined.

Lemma hmac_not_a_string_witness :
  exists r,
    responses (run (post_generate_hmac sample_iso sample_arg_message
                      ["data" :- VNum 5; "secret" :- str "key"]) sample_world)
    = responses sample_world ++ [r]
    /\ status r = 500%Z.
Proof.
  destruct (hmac_not_a_string sample_iso sample_arg_message
              ["data" :- VNum 5; "secret" :- str "key"] sample_world)
    as (r & Hr & Hs & _).
  - reflexivity.
  - reflexivity.
  - right. intros s. discriminate.
  - exists r. split; [exact Hr | exact Hs].
Defined.

(** ** path.extname as the upload code uses it *)

Lemma ext_scan_cons (st : ExtState) (k : Z) (c : N) (s : jsstring) :
  ext_scan st k (c :: s) = extname_step (ext_scan st (k + 1) s) (k, c).
Proof. unfold ext_scan. simpl. now rewrite fold_left_app. Qed.

Lemma indexed_app (k : Z) (a b : jsstring) :
  indexed k (a ++ b) = indexed k a ++ indexed (k + Z.of_nat (length a)) b.
Proof.
  revert k. induction a as [|c a IH]; intros k; simpl.
  - now rewrite Z.add_0_r.
  - rewrite IH. do 3 f_equal. lia.
Qed.

Lemma ext_scan_app (st : ExtState) (k : Z) (a b : jsstring) :
  ext_scan st k (a ++ b)
  = ext_scan (ext_scan st (k + Z.of_nat (length a)) b) k a.
Proof.
  unfold ext_scan. now rewrite indexed_app, rev_app_distr, fold_left_app.
Qed.

Lemma extname_eq (path : jsstring) :
  extname path =
  let st := ext_scan ext_init 0 path in
  if ((startDot st =? -1) || (endIdx st =? -1) || (preDotState st =? 0)
      || ((preDotState st =? 1) && (startDot st =? endIdx st - 1)
          && (startDot st =? startPart st + 1)))%Z
  then []
  else slice (startDot st) (endIdx st) path.
Proof. reflexivity. Qed.

Ltac scan_done dot :=
  repeat split; try easy; try lia; try (simpl; lia); try (now left);
  try (right; dot; split; [reflexivity | simpl; lia]).

(** What the loop knows after the code units [s] from index [k] on:
    either it has met nothing but slashes, or [s] is [pre ++ mid ++ b]
    with [mid] the slash-free stretch that ends at [endIdx], and the dot
    it remembers, if any, lies in [mid]. *)
Lemma ext_scan_inv (s : jsstring) (k : Z) :
  (0 <= k)%Z ->
  let st := ext_scan ext_init k s in
  (endIdx st = (-1)%Z /\ startDot st = (-1)%Z
   /\ stopped st = false /\ matchedSlash st = true)
  \/ (exists pre mid b,
        s = pre ++ mid ++ b
        /\ Forall (fun c => c <> 47) mid
        /\ endIdx st = (k + Z.of_nat (length pre) + Z.of_nat (length mid))%Z
        /\ mid <> []
        /\ matchedSlash st = false
        /\ (stopped st = false -> pre = [])
        /\ (startDot st = (-1)%Z
            \/ exists m1 ext,
                 mid = m1 ++ 46 :: ext
                 /\ startDot st
                    = (k + Z.of_nat (length pre) + Z.of_nat (length m1))%Z)).
Proof.
  revert k. induction s as [|c s IH]; intros k Hk; cbv zeta.
  - left. now repeat split.
  - rewrite ext_scan_cons.
    specialize (IH (k + 1)%Z ltac:(lia)). cbv zeta in IH.
    destruct (ext_scan ext_init (k + 1) s) as [sd sp e ms pd stop].
    cbn [endIdx startDot stopped matchedSlash] in IH.
    destruct IH as [(-> & -> & -> & ->)
                   | (pre & mid & b & -> & Hmid & -> & Hne & -> & Hpre & Hsd)].
    + (* only slashes so far *)
      cbn [extname_step]. destruct (N.eqb_spec c 47) as [->|Hc].
      * left. now repeat split.
      * cbn [Z.eqb negb]. right. exists [], [c], s.
        assert (Hall : Forall (fun c0 => c0 <> 47) [c]) by (repeat constructor; easy).
        destruct (N.eqb_spec c 46) as [->|Hd]; cbn.
        -- scan_done ltac:(exists [], []).
        -- scan_done ltac:(idtac).
    + (* a stretch without slash has been met *)
      cbn [extname_step]. destruct stop.
      * (* after the break *)
        right. exists (c :: pre), mid, b. cbn.
        destruct Hsd as [->|(m1 & ext & -> & ->)].
        -- scan_done ltac:(idtac).
        -- scan_done ltac:(exists m1, ext).
      * pose proof (Hpre eq_refl) as ->. clear Hpre.
        cbn [app length Z.of_nat] in *. rewrite Z.add_0_r in *.
        destruct (N.eqb_spec c 47) as [->|Hc].
        -- (* the break *)
           cbn [negb]. right. exists [47], mid, b. cbn.
           destruct Hsd as [->|(m1 & ext & -> & ->)].
           ++ scan_done ltac:(idtac).
           ++ scan_done ltac:(exists m1, ext).
        -- destruct (Z.eqb_spec (k + 1 + Z.of_nat (length mid)) (-1)) as [He|_];
             [lia|].
           right. exists [], (c :: mid), b.
           assert (Hall : Forall (fun c0 => c0 <> 47) (c :: mid))
             by (constructor; easy).
           destruct Hsd as [->|(m1 & ext & -> & ->)].
           ++ cbn [Z.eqb negb].
              destruct (N.eqb_spec c 46) as [->|Hd]; cbn.
              ** scan_done ltac:(exists [], mid).
              ** scan_done ltac:(idtac).
           ++ destruct (Z.eqb_spec (k + 1 + Z.of_nat (length m1)) (-1)) as [Hs|_];
                [lia|].
              cbn [negb].
              destruct (N.eqb_spec c 46) as [->|Hd].
              ** destruct (negb (pd =? 1)%Z); cbn;
                   scan_done ltac:(exists (46 :: m1), ext).
              ** cbn. scan_done ltac:(exists (c :: m1), ext).
Qed.

Lemma slice_middle (a m b : jsstring) :
  slice (Z.of_nat (length a)) (Z.of_nat (length a) + Z.of_nat (length m))
        (a ++ m ++ b) = m.
Proof.
  unfold slice.
  replace (Z.to_nat (Z.of_nat (length a) + Z.of_nat (length m) - Z.of_nat (length a)))
    with (length m) by lia.
  rewrite Nat2Z.id. change skipn with (@drop N). change firstn with (@take N).
  now rewrite drop_app_length, take_app_length.
Qed.

(** The extension is empty or a dot followed by code units that are no
    slashes, and it is cut out of the path. *)
Lemma extname_shape (path : jsstring) :
  extname path = []
  \/ exists a ext b,
       path = a ++ (46 :: ext) ++ b
       /\ extname path = 46 :: ext
       /\ Forall (fun c => c <> 47) ext.
Proof.
  rewrite extname_eq. cbv zeta.
  destruct (ext_scan_inv path 0 ltac:(lia)) as
    [(He & _) | (pre & mid & b & Hp & Hmid & He & _ & _ & _ & Hsd)];
    cbv zeta in *.
  - rewrite He. cbn [Z.eqb]. rewrite orb_true_r. now left.
  - destruct Hsd as [Hsd|(m1 & ext & -> & Hsd)].
    + rewrite Hsd. now left.
    + destruct (_ || _)%bool; [now left|]. right.
      exists (pre ++ m1), ext, b. rewrite He, Hsd. subst path.
      split; [now rewrite <- !app_assoc|]. split.
      * idtac.
        replace (pre ++ (m1 ++ 46 :: ext) ++ b)
          with ((pre ++ m1) ++ (46 :: ext) ++ b) by now rewrite <- !app_assoc.
        replace (0 + Z.of_nat (length pre) + Z.of_nat (length m1))%Z
          with (Z.of_nat (length (pre ++ m1))) by (rewrite length_app; lia).
        replace (0 + Z.of_nat (length pre) + Z.of_nat (length (m1 ++ 46%N :: ext)))%Z
          with (Z.of_nat (length (pre ++ m1)) + Z.of_nat (length (46%N :: ext)))%Z
          by (rewrite !length_app; lia).
        apply slice_middle.
      * apply Forall_app in Hmid as [_ Hmid]. now inversion Hmid.
Qed.

Lemma ext_scan_plain (ext : jsstring) (k : Z) :
  (0 <= k)%Z -> ext <> [] ->
  Forall (fun c => c <> 46 /\ c <> 47) ext ->
  ext_scan ext_init k ext
  = mkExt (-1) 0 (k + Z.of_nat (length ext)) false 0 false.
Proof.
  revert k. induction ext as [|c ext IH]; intros k Hk Hne Hall; [easy|].
  inversion Hall as [|? ? [Hd Hs] Hall']; subst.
  rewrite ext_scan_cons. destruct ext as [|c' ext].
  - cbn. destruct (N.eqb_spec c 47); [easy|]. destruct (N.eqb_spec c 46); [easy|].
    cbn; f_equal; lia.
  - rewrite IH by (try lia; easy). cbn [extname_step].
    destruct (N.eqb_spec c 47); [easy|]. destruct (N.eqb_spec c 46); [easy|].
    destruct (Z.eqb_spec (k + 1 + Z.of_nat (length (c' :: ext))) (-1)); [lia|].
    cbn [negb Z.eqb]; f_equal; simpl length; lia.
Qed.

Lemma ext_scan_dot (ext : jsstring) (k : Z) :
  (0 <= k)%Z -> ext <> [] ->
  Forall (fun c => c <> 46 /\ c <> 47) ext ->
  ext_scan ext_init k (46 :: ext)
  = mkExt k 0 (k + 1 + Z.of_nat (length ext)) false 0 false.
Proof.
  intros Hk Hne Hall. rewrite ext_scan_cons, ext_scan_plain by (try lia; easy).
  cbn [extname_step].
  destruct (Z.eqb_spec (k + 1 + Z.of_nat (length ext)) (-1)); [lia|].
  reflexivity.
Qed.

(** Once a dot is remembered, the code units further left change neither
    the dot nor the end; the first of them, unless it is a slash, takes
    [preDotState] away from 0 for good. *)
Lemma ext_scan_left (st0 : ExtState) (stem : jsstring) (k : Z) :
  startDot st0 <> (-1)%Z -> endIdx st0 <> (-1)%Z ->
  matchedSlash st0 = false -> stopped st0 = false ->
  startDot (ext_scan st0 k stem) = startDot st0
  /\ endIdx (ext_scan st0 k stem) = endIdx st0
  /\ matchedSlash (ext_scan st0 k stem) = false
  /\ (stem <> [] -> last stem <> Some 47 ->
      preDotState (ext_scan st0 k stem) <> 0%Z).
Proof.
  intros Hsd He Hms Hstop. revert k.
  induction stem as [|c stem IH]; intros k; [easy|].
  rewrite ext_scan_cons. specialize (IH (k + 1)%Z).
  destruct stem as [|c' stem].
  - change (ext_scan st0 (k + 1) []) with st0. clear IH.
    destruct st0 as [sd sp e ms pd stop]. cbn in *. subst ms stop.
    destruct (N.eqb_spec c 47) as [->|Hc]; [cbn; repeat split; easy|].
    destruct (Z.eqb_spec e (-1)); [easy|].
    destruct (Z.eqb_spec sd (-1)); [easy|]. cbn [negb].
    destruct (N.eqb_spec c 46).
    + destruct (Z.eqb_spec pd 1); cbn; repeat split; try easy; lia.
    + cbn. repeat split; easy.
  - destruct IH as (Hsd' & He' & Hms' & Hpd').
    destruct (ext_scan st0 (k + 1) (c' :: stem)) as [sd sp e ms pd stop].
    cbn [startDot endIdx matchedSlash preDotState] in *. subst sd e ms.
    assert (Hlast : last (c :: c' :: stem) = last (c' :: stem)) by reflexivity.
    rewrite Hlast. cbn [extname_step].
    destruct stop; [cbn; repeat split; try easy; intros _; now apply Hpd'|].
    destruct (N.eqb_spec c 47) as [->|Hc];
      [cbn; repeat split; try easy; intros _; now apply Hpd'|].
    destruct (Z.eqb_spec (endIdx st0) (-1)); [easy|].
    destruct (Z.eqb_spec (startDot st0) (-1)); [easy|]. cbn [negb].
    destruct (N.eqb_spec c 46).
    + destruct (Z.eqb_spec pd 1); cbn; repeat split; try easy.
      intros _ Hl. subst pd. discriminate.
    + cbn. repeat split; easy.
Qed.

(** For a name in two parts, a stem that does not end in a slash and an
    extension without dot and slash, the extension is what follows the
    last dot, the dot included. *)
Lemma extname_stem_ext (stem ext : jsstring) :
  stem <> [] -> last stem <> Some 47 ->
  ext <> [] -> Forall (fun c => c <> 46 /\ c <> 47) ext ->
  extname (stem ++ 46 :: ext) = 46 :: ext.
Proof.
  intros Hstem Hlast Hext Hall. rewrite extname_eq. cbv zeta.
  rewrite ext_scan_app, ext_scan_dot by (try lia; easy).
  set (st0 := mkExt (0 + Z.of_nat (length stem)) 0
                    (0 + Z.of_nat (length stem) + 1 + Z.of_nat (length ext))
                    false 0 false).
  destruct (ext_scan_left st0 stem 0) as (Hsd & He & _ & Hpd);
    try reflexivity; try (cbn; lia).
  specialize (Hpd Hstem Hlast).
  rewrite Hsd, He. cbn [st0 startDot endIdx].
  assert (Hn : length ext <> 0%nat) by now destruct ext.
  destruct (Z.eqb_spec (0 + Z.of_nat (length stem)) (-1)); [lia|].
  destruct (Z.eqb_spec (0 + Z.of_nat (length stem) + 1 + Z.of_nat (length ext)) (-1));
    [lia|].
  destruct (Z.eqb_spec (preDotState (ext_scan st0 0 stem)) 0); [easy|].
  destruct (Z.eqb_spec (0 + Z.of_nat (length stem))
                       (0 + Z.of_nat (length stem) + 1 + Z.of_nat (length ext) - 1));
    [lia|].
  rewrite andb_false_r. cbn [orb andb].
  replace (0 + Z.of_nat (length stem))%Z with (Z.of_nat (length stem)) by lia.
  replace (Z.of_nat (length stem) + 1 + Z.of_nat (length ext))%Z
    with (Z.of_nat (length stem) + Z.of_nat (length (46%N :: ext)))%Z
    by (simpl length; lia).
  pose proof (slice_middle stem (46 :: ext) []) as H.
  now rewrite app_nil_r in H.
Qed.

(** ** The name of the staged file *)

Lemma lit_String (a : ascii) (s : string) :
  lit (String a s) = N_of_ascii a :: lit s.
Proof. reflexivity. Qed.

Lemma lit_inj (s s' : string) : lit s = lit s' -> s = s'.
Proof.
  revert s'. induction s as [|a s IH]; intros [|a' s']; try discriminate.
  - reflexivity.
  - rewrite !lit_String. intros [= Ha Hs]. f_equal; [|now apply IH].
    now rewrite <- (ascii_N_embedding a), Ha, ascii_N_embedding.
Qed.

Lemma digit_bounds (c : N) : is_digit c = true -> 48 <= c <= 57.
Proof.
  unfold is_digit, in_range. intros H. apply andb_true_iff in H as [H1 H2].
  split; now apply N.leb_le.
Qed.

Lemma uint_digits (d : Decimal.uint) :
  Forall (fun c => is_digit c = true) (lit (NilEmpty.string_of_uint d)).
Proof.
  induction d; cbn [NilEmpty.string_of_uint]; rewrite ?lit_String;
    constructor; easy.
Qed.

Lemma dec_digits (n : Z) : Forall (fun c => is_digit c = true) (dec n).
Proof.
  unfold dec, NilZero.string_of_uint.
  destruct (N.to_uint (Z.to_N n)) eqn:E; try (rewrite <- E; apply uint_digits).
  repeat constructor.
Qed.

Lemma to_uint_nonnil (n : N) : N.to_uint n <> Decimal.Nil.
Proof.
  destruct n as [|p]; [discriminate|].
  apply DecimalPos.Unsigned.to_uint_nonnil.
Qed.

Lemma dec_inj (a b : Z) : (0 <= a)%Z -> (0 <= b)%Z -> dec a = dec b -> a = b.
Proof.
  intros Ha Hb H. unfold dec in H. apply lit_inj in H.
  apply (f_equal NilZero.uint_of_string) in H.
  rewrite !NilZero.usu in H by apply to_uint_nonnil.
  injection H as H. apply DecimalN.Unsigned.to_uint_inj in H. lia.
Qed.

Lemma app_sep_inj (P : N -> Prop) (c : N) (l1 l2 r1 r2 : jsstring) :
  Forall P l1 -> Forall P l2 -> ~ P c ->
  l1 ++ c :: r1 = l2 ++ c :: r2 -> l1 = l2 /\ r1 = r2.
Proof.
  intros H1 H2 Hc. revert l2 H2.
  induction H1 as [|x l1 Hx H1 IH]; intros l2 H2; destruct H2 as [|y l2 Hy H2];
    simpl; intros E.
  - now injection E as ->.
  - injection E as -> _. contradiction.
  - injection E as -> _. contradiction.
  - injection E as -> E. now destruct (IH l2 H2 E) as [-> ->].
Qed.

Lemma app_run_inj (P : N -> Prop) (l1 l2 r1 r2 : jsstring) :
  Forall P l1 -> Forall P l2 -> ends_run P r1 -> ends_run P r2 ->
  l1 ++ r1 = l2 ++ r2 -> l1 = l2 /\ r1 = r2.
Proof.
  intros H1 H2 Hr1 Hr2. revert l2 H2.
  induction H1 as [|x l1 Hx H1 IH]; intros l2 H2; destruct H2 as [|y l2 Hy H2];
    simpl; intros E.
  - easy.
  - subst r1. now destruct Hr1.
  - subst r2. now destruct Hr2.
  - injection E as -> E. destruct (IH l2 H2 E) as [-> ->]. easy.
Qed.

Lemma extname_ends_digits (path : jsstring) :
  ends_run (fun c => is_digit c = true) (extname path).
Proof.
  destruct (extname_shape path) as [-> | (a & ext & b & _ & -> & _)];
    [exact I | discriminate].
Qed.

(** X16. The name under which an upload is staged holds no slash,
    whatever file name the client sent: it is pdf-<timestamp>-<random>
    followed by an extension that is empty or starts with a dot, so the
    staged file lies directly in the scratch directory. *)
Theorem scratch_name_flat (dir : jsstring) (f : Part) (w : World) :
  Forall (fun c => c <> 47) (scratch_name f w)
  /\ scratch_path dir f w = dir ++ lit "/" ++ scratch_name f w
  /\ exists ext,
       scratch_name f w
       = lit "pdf-" ++ dec (now w) ++ lit "-" ++ dec (random w) ++ ext
       /\ (ext = [] \/ exists e, ext = 46 :: e).
Proof.
  assert (Hdig : forall n, Forall (fun c => c <> 47) (dec n)).
  { intros n. eapply Forall_impl; [apply dec_digits|].
    intros c Hc ->. discriminate. }
  split; [|split; [reflexivity|]].
  - unfold scratch_name. rewrite !Forall_app.
    repeat split; try apply Hdig; try (repeat constructor; discriminate).
    destruct (extname_shape (originalname f)) as [-> | (a & ext & b & _ & -> & Hs)];
      [constructor|]. constructor; [discriminate | exact Hs].
  - exists (extname (originalname f)). split.
    + unfold scratch_name. now rewrite <- !app_assoc.
    + destruct (extname_shape (originalname f)) as [-> | (a & ext & b & _ & -> & _)];
        [now left | right; now exists ext].
Qed.

(** X17. Two uploads are staged under the same path only when their
    timestamps are equal, their random numbers are equal and their file
    names have the same extension: a difference in any of the three gives
    different paths. *)
Theorem scratch_path_inj (dir : jsstring) (f f' : Part) (w w' : World) :
  (0 <= now w)%Z -> (0 <= random w)%Z ->
  (0 <= now w')%Z -> (0 <= random w')%Z ->
  scratch_path dir f w = scratch_path dir f' w' ->
  now w = now w' /\ random w = random w'
  /\ extname (originalname f) = extname (originalname f').
Proof.
  intros Hn Hr Hn' Hr' H. unfold scratch_path, scratch_name in H.
  do 4 apply app_inv_head in H.
  rewrite <- !app_assoc in H.
  assert (Hdig : forall n, Forall (fun c => is_digit c = true) (dec n))
    by apply dec_digits.
  destruct (app_sep_inj (fun c => is_digit c = true) 45
              (dec (now w)) (dec (now w'))
              (dec (random w) ++ extname (originalname f))
              (dec (random w') ++ extname (originalname f')))
    as [Ha H']; [apply Hdig | apply Hdig | discriminate | exact H |].
  apply (app_run_inj (fun c => is_digit c = true)) in H' as [Hb He];
    [|apply Hdig|apply Hdig|apply extname_ends_digits|apply extname_ends_digits].
  apply dec_inj in Ha; [|assumption..]. apply dec_inj in Hb; [|assumption..].
  easy.
Qed.

Lemma scratch_path_inj_witness :
  scratch_path sample_dir pdf_part sample_world
  = scratch_path sample_dir scan_part (set_undeletable {[pdf_path]} sample_world)
  /\ now sample_world = now (set_undeletable {[pdf_path]} sample_world)
  /\ random sample_world = random (set_undeletable {[pdf_path]} sample_world)
  /\ extname (originalname pdf_part) = extname (originalname scan_part).
Proof.
  assert (H : scratch_path sample_dir pdf_part sample_world
              = scratch_path sample_dir scan_part
                  (set_undeletable {[pdf_path]} sample_world))
    by (vm_compute; reflexivity).
  split; [exact H|].
  apply (scratch_path_inj sample_dir pdf_part scan_part sample_world
           (set_undeletable {[pdf_path]} sample_world));
    try (vm_compute; discriminate).
  exact H.
Defined.

Lemma lower_pdf (ext : jsstring) :
  toLowerCase ext = lit "pdf" ->
  ext <> [] /\ Forall (fun c => c <> 46 /\ c <> 47) ext.
Proof.
  intros H. split; [now destruct ext|].
  assert (Hc : forall c, lower c <> 46 -> lower c <> 47 -> c <> 46 /\ c <> 47).
  { intros c H1 H2. split; intros ->; [now apply H1 | now apply H2]. }
  destruct ext as [|a [|b [|c [|d ext]]]]; try discriminate.
  injection H as Ha Hb Hc'.
  repeat constructor; apply Hc; rewrite ?Ha, ?Hb, ?Hc'; discriminate.
Qed.

(** X18. A part whose file name is a stem followed by .pdf, in any
    letter case of the extension, passes the file filter whatever content
    type it declares and whatever bytes it holds; the name it is staged
    under ends with that extension as the client typed it. *)
Theorem fileFilter_by_name (field stem ext type : jsstring)
        (bytes : list Byte.byte) (w : World) :
  stem <> [] -> last stem <> Some 47 ->
  toLowerCase ext = lit "pdf" ->
  fileFilter (mkPart field (stem ++ 46 :: ext) type bytes) = Ok true
  /\ scratch_name (mkPart field (stem ++ 46 :: ext) type bytes) w
     = lit "pdf-" ++ dec (now w) ++ lit "-" ++ dec (random w) ++ 46 :: ext.
Proof.
  intros Hstem Hlast Hext.
  destruct (lower_pdf ext Hext) as [Hne Hall].
  pose proof (extname_stem_ext stem ext Hstem Hlast Hne Hall) as He.
  split.
  - apply fileFilter_accepts. right. cbn [originalname]. rewrite He.
    cbn [toLowerCase map]. change (map lower ext) with (toLowerCase ext).
    now rewrite Hext.
  - unfold scratch_name. cbn [originalname]. rewrite He.
    now rewrite <- !app_assoc.
Qed.

Lemma fileFilter_by_name_witness :
  fileFilter (mkPart (lit "pdf") (lit "Resume" ++ 46 :: lit "PDF")
                     (lit "application/octet-stream") pdf_bytes) = Ok true.
Proof.
  apply (fileFilter_by_name (lit "pdf") (lit "Resume") (lit "PDF")
           (lit "application/octet-stream") pdf_bytes sample_world).
  - discriminate.
  - vm_compute. discriminate.
  - vm_compute. reflexivity.
Defined.

Lemma hmac_signature_format_witness :
  exists signature,
    get "signature"
        (body (hmac_response sample_iso sample_arg_message hello_body sample_world))
    = VStr signature
    /\ length signature = 128%nat.
Proof.
  destruct (hmac_signature_format sample_iso sample_arg_message hello_body
              sample_world
              (hmac_response sample_iso sample_arg_message hello_body sample_world))
    as (signature & Hsig & Hlen & _).
  - apply hmac_outcome.
  - reflexivity.
  - exists signature. split; [exact Hsig | exact Hlen].
Defined.

(** X20. The resolver changes a string exactly when the string holds
    the viewer/share pattern: a rewritten URL always differs from the URL
    it was made from, and a string without the pattern comes back as it
    is. *)
Theorem convertGoogleDriveUrl_changes (s u : jsstring) :
  convertGoogleDriveUrl (VStr s) = Ok u ->
  (u <> s <-> matches_drive s).
Proof.
  unfold convertGoogleDriveUrl.
  destruct (regex_match s) as [id|] eqn:Hm; intros H.
  - replace u with (download_prefix ++ id) by congruence.
    destruct (regex_match_Some _ _ Hm) as (pre & post & Hl & _).
    split; [intros _; now exists pre, id, post|].
    intros _ E. rewrite <- E in Hm.
    destruct Hl as [_ [_ Hall]].
    now rewrite (regex_match_download id Hall) in Hm.
  - replace u with s by congruence.
    split; [easy|]. intros Hyes. now apply regex_match_None in Hm.
Qed.

Lemma convertGoogleDriveUrl_changes_witness :
  download_prefix ++ drive_id <> drive_url <-> matches_drive drive_url.
Proof.
  apply (convertGoogleDriveUrl_changes drive_url (download_prefix ++ drive_id)).
  vm_compute. reflexivity.
Defined.

Lemma extname_no_dot (name : jsstring) :
  Forall (fun c => c <> 46) name -> extname name = [].
Proof.
  intros Hall.
  destruct (extname_shape name) as [H | (a & ext & b & Hn & _)]; [exact H|].
  rewrite Hn in Hall. apply Forall_app in Hall as [_ Hall].
  apply Forall_app in Hall as [Hall _]. now inversion Hall.
Qed.

(** X21. A part whose file name holds no dot has no extension, so the
    file filter accepts it exactly when it declares the content type
    application/pdf. *)
Theorem fileFilter_no_dot (field name type : jsstring) (bytes : list Byte.byte) :
  Forall (fun c => c <> 46) name ->
  (fileFilter (mkPart field name type bytes) = Ok true
   <-> type = lit "application/pdf").
Proof.
  intros Hall. unfold fileFilter. cbn [mimetype originalname].
  rewrite (extname_no_dot name Hall).
  change (bool_decide (toLowerCase [] = lit ".pdf")) with false.
  rewrite orb_false_r.
  destruct (bool_decide (type = lit "application/pdf")) eqn:Ht.
  - apply bool_decide_eq_true_1 in Ht. easy.
  - apply bool_decide_eq_false_1 in Ht. split; [discriminate | easy].
Qed.

Lemma fileFilter_no_dot_witness :
  fileFilter (mkPart (lit "pdf") (lit "resume") (lit "text/plain") pdf_bytes)
  = Ok true
  <-> lit "text/plain" = lit "application/pdf".
Proof.
  apply (fileFilter_no_dot (lit "pdf") (lit "resume") (lit "text/plain") pdf_bytes).
  vm_compute. repeat constructor; discriminate.
Defined.

Lemma uploads_leave_no_files_witness :
  files (serve_uploads sample_dir sample_parse sample_iso
           [(1704067200000, 1, Some pdf_part); (1704067200001, 2, Some text_part);
            (1704067200002, 3, None); (1704067200003, 4, Some pdf_part)]%Z
           sample_world)
  = files sample_world.
Proof.
  apply (uploads_leave_no_files sample_dir sample_parse sample_iso).
  - reflexivity.
  - intros t r f _. reflexivity.
Defined.
